(** * geoip release builder: a shallow embedding of [main.go]

    The program downloads an upstream MaxMind country database, groups its
    networks by country, replaces the ranges of [cn] by CIDR lists fetched
    from two text sources, re-encodes the result as two MMDB tries and emits
    per-country rule-set files.

    Go packages that are not part of the repository (net, net/http, bufio,
    os, path/filepath, maxminddb, mmdbwriter, srs, go-github) are interfaces
    here: one type class per package, holding the operations [main.go] calls.
    The functions of [main.go] are written once, over these interfaces. *)

From Stdlib Require Import ZArith NArith Ascii String List Strings.Byte.
From stdpp Require Import base tactics option list gmap strings sorting pretty.

Local Open Scope string_scope.
Local Open Scope list_scope.

(** ** Go values *)

(** A Go [error] value, identified with its message. *)
Inductive error : Type := Error (msg : string).

(** [E.New(args...)] of sing/common/exceptions concatenates its arguments. *)
Definition E_New (args : list string) : error := Error (String.concat "" args).

(** Entries written through the sing-box logger. *)
Inductive LogEntry : Type :=
| Info (args : list string)
| Warn (args : list string).

(** The line feed, Go's ["\n"]. *)
Definition LF : string := String "010"%char EmptyString.

(** *** package strings *)

(** The ASCII white space of [strings.TrimSpace]: tab, LF, VT, FF, CR and
    space.  The sources read by the program are ASCII; the Unicode spaces
    that Go also trims are multi-byte and are not trimmed here. *)
Definition isSpace (c : ascii) : bool :=
  let n := N_of_ascii c in
  ((9 <=? n) && (n <=? 13) || (n =? 32))%N.

Fixpoint trimLeft (s : string) : string :=
  match s with
  | String c s' => if isSpace c then trimLeft s' else s
  | EmptyString => EmptyString
  end.

Fixpoint trimRight (s : string) : string :=
  match s with
  | String c s' =>
      match trimRight s' with
      | EmptyString => if isSpace c then EmptyString else String c EmptyString
      | t => String c t
      end
  | EmptyString => EmptyString
  end.

Definition TrimSpace (s : string) : string := trimRight (trimLeft s).

(** [strings.HasPrefix]. *)
Definition HasPrefix (s p : string) : bool := String.prefix p s.

(** [strings.Contains]: [substr] occurs somewhere in [s]. *)
Fixpoint Contains (s substr : string) : bool :=
  String.prefix substr s ||
  match s with
  | String _ s' => Contains s' substr
  | EmptyString => false
  end.

(** [strings.ToLower] on ASCII: the letters [A]..[Z] are moved to [a]..[z],
    every other byte is kept. *)
Definition isUpper (c : ascii) : bool :=
  let n := N_of_ascii c in ((65 <=? n) && (n <=? 90))%N.

Definition toLowerByte (c : ascii) : ascii :=
  if isUpper c then ascii_of_N (N_of_ascii c + 32) else c.

Fixpoint ToLower (s : string) : string :=
  match s with
  | String c s' => String (toLowerByte c) (ToLower s')
  | EmptyString => EmptyString
  end.

(** *** package sort *)

(** Go compares strings bytewise, as [String.le] does; [sort.Strings] sorts
    ascending. *)
Definition sort_Strings (codes : list string) : list string :=
  merge_sort String.le codes.

(** *** Go maps *)

(** A [map[string]V] is a finite map.  Reading a missing key gives the zero
    value of [V]; a nil map reads like the empty one. *)
Definition map_index {V} (zero : V) (m : gmap string V) (k : string) : V :=
  default zero (m !! k).

(** [m[k] = v]. *)
Definition map_store {V} (m : gmap string V) (k : string) (v : V)
  : gmap string V :=
  <[k := v]> m.

(** [for k, v := range m]: the runtime visits the entries in an order of its
    own choosing, which may differ from one loop to the next.  The order is
    an explicit argument: the list of keys as the loop meets them. *)
Definition range_map {V} (order : list string) (m : gmap string V)
  : list (string * V) :=
  omap (λ k, (λ v, (k, v)) <$> m !! k) order.

(** [order] is an order in which a range loop can visit [m]: every key once. *)
Definition range_order {V} (m : gmap string V) (order : list string) : Prop :=
  order ≡ₚ (map_to_list m).*1.

(** *** package net *)

(** [net.IPNet]: an address of 4 or 16 bytes and a mask. *)
Record IPNet : Type := mkIPNet { IP : list byte; Mask : list byte }.

Definition IPv4len : nat := 4.
Definition IPv6len : nat := 16.

Definition isZeros (p : list byte) : bool :=
  forallb (λ b, Byte.eqb b x00) p.

(** [ip[i] == v], for an index that may be out of range. *)
Definition byte_at (ip : list byte) (i : nat) (v : byte) : bool :=
  match ip !! i with
  | Some b => Byte.eqb b v
  | None => false
  end.

(** [IP.To4]: the 4-byte form of an IPv4 address, [None] for Go's nil. *)
Definition To4 (ip : list byte) : option (list byte) :=
  if (length ip =? IPv4len)%nat then Some ip
  else if (length ip =? IPv6len)%nat
          && isZeros (take 10 ip)
          && byte_at ip 10 xff
          && byte_at ip 11 xff
       then Some (take 4 (drop 12 ip))
       else None.

(** The two functions of package net whose text syntax the program relies
    on: [ParseCIDR] (its [*IPNet] result, or the error) and [IPNet.String]. *)
Class NetPkg : Type := {
  ParseCIDR : string → error + IPNet;
  IPNet_String : IPNet → string
}.

(** ** The world the program acts on *)

(** Files by path, the log, and what was written to standard output. *)
Record World : Type := mkWorld {
  files : gmap string string;
  logged : list LogEntry;
  stdout : string
}.

(** A Go function with effects that returns [(T, error)] or [error]: it
    leaves a world behind in either case. *)
Definition IO (A : Type) : Type := World → (error + A) * World.

#[global] Instance IO_ret : MRet IO := λ A x w, (inr x, w).

#[global] Instance IO_bind : MBind IO := λ A B f m w,
  match m w with
  | (inl e, w') => (inl e, w')
  | (inr x, w') => f x w'
  end.

(** [return err]. *)
Definition fail {A} (e : error) : IO A := λ w, (inl e, w).

(** A call whose [err] the caller inspects itself. *)
Definition attempt {A} (m : IO A) : IO (error + A) := λ w,
  let '(r, w') := m w in (inr r, w').

(** A pure call returning [(T, error)], followed by
    [if err != nil { return ..., err }]. *)
Definition check {A} (r : error + A) : IO A := λ w, (r, w).

Definition log_Info (args : list string) : IO unit := λ w,
  (inr tt, mkWorld (files w) (logged w ++ [Info args]) (stdout w)).

Definition log_Warn (args : list string) : IO unit := λ w,
  (inr tt, mkWorld (files w) (logged w ++ [Warn args]) (stdout w)).

(** *** packages os and path/filepath *)

(** What the program needs of the operating system.  Whether a file or a
    directory can be created is the system's decision ([create_error],
    [mkdir_error]); so is the set of files under a directory
    ([remove_all]). *)
Class OSPkg : Type := {
  os_Getenv : string → string;
  create_error : gmap string string → string → option error;
  mkdir_error : gmap string string → string → option error;
  remove_all : string → gmap string string → gmap string string;
  filepath_Join : string → string → string;
  filepath_Abs : string → string
}.

Section os.
Context `{!OSPkg}.

(** [os.Create]: the file is created or truncated; the handle is its path. *)
Definition os_Create (path : string) : IO string := λ w,
  match create_error (files w) path with
  | Some e => (inl e, w)
  | None => (inr path, mkWorld (<[path := ""]> (files w)) (logged w) (stdout w))
  end.

(** Bytes reaching an open file are appended to it. *)
Definition file_Write (file : string) (data : string) : IO unit := λ w,
  (inr tt, mkWorld (<[file := map_index "" (files w) file +:+ data]> (files w))
                   (logged w) (stdout w)).

(** [os.RemoveAll], its error dropped as in [release]. *)
Definition os_RemoveAll (path : string) : IO unit := λ w,
  (inr tt, mkWorld (remove_all path (files w)) (logged w) (stdout w)).

Definition os_MkdirAll (path : string) : IO unit := λ w,
  match mkdir_error (files w) path with
  | Some e => (inl e, w)
  | None => (inr tt, w)
  end.

Definition os_Stdout_WriteString (s : string) : IO unit := λ w,
  (inr tt, mkWorld (files w) (logged w) (stdout w +:+ s)).
End os.

(** *** package bufio: the writer *)

(** A [bufio.Writer] holds what was written until it is flushed; the errors
    of [WriteString] and [Flush] are dropped by the program. *)
Definition bufio_NewWriter : string := "".

Definition WriteString (writer : string) (s : string) : string := writer +:+ s.

(** ** Text format emitters *)

Section emit.
Context `{!NetPkg, !OSPkg}.

(** [writeCIDRsToFile], main.go lines 182-224.  The deferred [Flush] and
    [Close] run after the log entry. *)
Definition writeCIDRsToFile (cidrs : list IPNet)
    (outputDir countryCode format : string) : IO unit :=
  let fileName := "geoip-" +:+ countryCode +:+ "." +:+ format in
  let filePath := filepath_Abs (filepath_Join outputDir fileName) in
  file ← os_Create filePath;
  let writer := bufio_NewWriter in
  let writer :=
    if String.eqb format "txt" then
      foldl (λ writer cidr, WriteString writer (IPNet_String cidr +:+ LF)) writer cidrs
    else if String.eqb format "list" then
      foldl (λ writer cidr,
               if To4 (IP cidr) is Some _
               then WriteString writer ("IP-CIDR," +:+ IPNet_String cidr +:+ LF)
               else WriteString writer ("IP-CIDR6," +:+ IPNet_String cidr +:+ LF)) writer cidrs
    else if String.eqb format "yaml" then
      let writer := WriteString writer ("payload:" +:+ LF) in
      foldl (λ writer cidr, WriteString writer ("  - " +:+ IPNet_String cidr +:+ LF)) writer cidrs
    else if String.eqb format "snippet" then
      foldl (λ writer cidr,
               if To4 (IP cidr) is Some _
               then WriteString writer ("ip-cidr, " +:+ IPNet_String cidr +:+ LF)
               else WriteString writer ("ip6-cidr, " +:+ IPNet_String cidr +:+ LF)) writer cidrs
    else writer in
  log_Info ["write "; filePath];;
  file_Write file writer.
End emit.

(** ** Loops with effects *)

(** [for _, x := range l { acc, err = f(acc, x); if err != nil { return err } }] *)
Fixpoint foldM {A B} (f : B → A → IO B) (b : B) (l : list A) : IO B :=
  match l with
  | [] => mret b
  | x :: l' => b' ← f b x; foldM f b' l'
  end.

(** ** CIDR source reader *)

(** Packages net/http, io and bufio.  A response body is read either whole
    ([io.ReadAll]) or through a [bufio.Scanner] with its default line
    splitting: [scan_lines] gives the tokens [Scan]/[Text] deliver, in
    order, and what [scanner.Err()] returns once [Scan] has said false. *)
Class HttpPkg : Type := {
  Body : Type;
  http_Get : string → error + Body;
  io_ReadAll : Body → error + string;
  scan_lines : Body → list string * option error
}.

Definition urls : list string := [
  "https://raw.githubusercontent.com/misakaio/chnroutes2/master/chnroutes.txt";
  "https://raw.githubusercontent.com/gaoyifan/china-operator-ip/ip-lists/china6.txt"
].

Section reader.
Context `{!NetPkg, !HttpPkg}.

(** The body of the scanner loop, main.go lines 163-171. *)
Definition scan_line (allCIDRs : list IPNet) (text : string)
  : IO (list IPNet) :=
  let line := TrimSpace text in
  if negb (String.eqb line "") && negb (HasPrefix line "#") then
    match ParseCIDR line with
    | inl _ => log_Warn ["Invalid CIDR:"; line];; mret allCIDRs
    | inr ipNet => mret (allCIDRs ++ [ipNet])
    end
  else mret allCIDRs.

(** The body of the loop over [urls], main.go lines 155-176. *)
Definition fetch_url (allCIDRs : list IPNet) (url : string)
  : IO (list IPNet) :=
  resp ← check (http_Get url);
  let scanner := scan_lines resp in
  allCIDRs ← foldM scan_line allCIDRs scanner.1;
  match scanner.2 with
  | Some err => fail err
  | None => mret allCIDRs
  end.

(** The loop of [fetchChinaIPCIDR] over any list of sources. *)
Definition fetch_sources (sources : list string) : IO (list IPNet) :=
  foldM fetch_url [] sources.

(** [fetchChinaIPCIDR], main.go lines 146-180. *)
Definition fetchChinaIPCIDR : IO (list IPNet) := fetch_sources urls.

(** What one line contributes, as the spec words it: trim, skip blank and
    comment lines, parse the rest; a line that does not parse is skipped. *)
Definition effective (text : string) : option string :=
  let line := TrimSpace text in
  if String.eqb line "" then None
  else if HasPrefix line "#" then None
  else Some line.

Definition valid_cidr (line : string) : Prop :=
  ∃ ipNet, ParseCIDR line = inr ipNet.

Definition line_network (line : string) : option IPNet :=
  match ParseCIDR line with
  | inr ipNet => Some ipNet
  | inl _ => None
  end.

Definition line_warning (line : string) : option LogEntry :=
  match ParseCIDR line with
  | inr _ => None
  | inl _ => Some (Warn ["Invalid CIDR:"; line])
  end.

(** The effective lines of a source, its networks and its warnings. *)
Definition source_lines (url : string) : list string :=
  match http_Get url with
  | inr resp => omap effective (scan_lines resp).1
  | inl _ => []
  end.

Definition source_networks (url : string) : list IPNet :=
  omap line_network (source_lines url).

Definition source_warnings (url : string) : list LogEntry :=
  omap line_warning (source_lines url).

(** The source can be retrieved and read to its end. *)
Definition source_ok (url : string) : Prop :=
  ∃ resp, http_Get url = inr resp ∧ (scan_lines resp).2 = None.
End reader.

(** ** Binary trie decoder *)

(** [maxminddb.Metadata], the fields the program reads; both are Go [uint]s
    (64 bits). *)
Record Metadata : Type := mkMetadata { IPVersion : Z; RecordSize : Z }.

Definition zero_Metadata : Metadata := mkMetadata 0 0.

(** [geoip2.Enterprise], the field the program reads:
    [RegisteredCountry.IsoCode]. *)
Record Enterprise : Type := mkEnterprise { RegisteredCountry_IsoCode : string }.

(** A leaf the network walk stops at: its network, and its data record seen
    through the decode buffer: the retrieval fails, or the record has a
    [registered_country.iso_code] entry or has none. *)
Record Leaf : Type := mkLeaf {
  leaf_net : IPNet;
  leaf_data : error + option string
}.

(** An opened database: the metadata, the leaves the walk
    [Networks(SkipAliasedNetworks)] visits before it ends, and how it ends
    ([networks.Err()], set when reading a tree node fails). *)
Record Reader : Type := mkReader {
  reader_Metadata : Metadata;
  reader_leaves : list Leaf;
  reader_err : option error
}.

Class MaxMindDB : Type := {
  FromBytes : string → error + Reader
}.

(** [networks.Network(&country)]: decoding a record writes the entries it
    has into the buffer; a field the record lacks keeps what the buffer
    held. *)
Definition Network (leaf : Leaf) (country : Enterprise)
  : (error + IPNet) * Enterprise :=
  match leaf_data leaf with
  | inl err => (inl err, country)
  | inr (Some iso) => (inr (leaf_net leaf), mkEnterprise iso)
  | inr None => (inr (leaf_net leaf), country)
  end.

(** The loop of [parse], main.go lines 90-99, with the named results
    [metadata], [countryMap] and [err] as they stand at each [return]. *)
Fixpoint parse_walk (networks : list Leaf) (networks_Err : option error)
    (metadata : Metadata) (countryMap : gmap string (list IPNet))
    (country : Enterprise)
  : Metadata * gmap string (list IPNet) * option error :=
  match networks with
  | [] => (metadata, countryMap, networks_Err)
  | leaf :: networks' =>
      match Network leaf country with
      | (inl err, _) => (metadata, countryMap, Some err)
      | (inr ipNet, country) =>
          let code := ToLower (RegisteredCountry_IsoCode country) in
          parse_walk networks' networks_Err metadata
            (map_store countryMap code (map_index [] countryMap code ++ [ipNet]))
            country
      end
  end.

Section decoder.
Context `{!MaxMindDB}.

(** [parse], main.go lines 80-100.  The nil map of the first [return] is
    the empty map. *)
Definition parse (binary : string)
  : Metadata * gmap string (list IPNet) * option error :=
  match FromBytes binary with
  | inl err => (zero_Metadata, ∅, Some err)
  | inr database =>
      let metadata := reader_Metadata database in
      parse_walk (reader_leaves database) (reader_err database)
        metadata ∅ (mkEnterprise "")
  end.
End decoder.

(** ** Binary trie encoder *)

(** The generators of package inserter that take a value. *)
Inductive InserterFuncGenerator : Type :=
| ReplaceWith
| TopLevelMergeWith
| DeepMergeWith.

(** [mmdbwriter.Options], the fields [newWriter] sets. *)
Record Options : Type := mkOptions {
  DatabaseType : string;
  Languages : list string;
  opt_IPVersion : Z;
  opt_RecordSize : Z;
  Inserter : InserterFuncGenerator;
  DisableIPv4Aliasing : bool;
  IncludeReservedNetworks : bool
}.

(** Package mmdbwriter.  [Insert] updates the tree it is called on;
    [WriteTo] gives the bytes that reach the file and its error. *)
Class MMDBWriter : Type := {
  Tree : Type;
  mmdbwriter_New : Options → error + Tree;
  Insert : Tree → IPNet → string → error + Tree;
  WriteTo : Tree → string * option error
}.

(** The conversion [int(u)] of a [uint], both 64 bits wide. *)
Definition int_of_uint (u : Z) : Z :=
  if (u <? 2 ^ 63)%Z then u else (u - 2 ^ 64)%Z.

Section encoder.
Context `{!OSPkg, !MMDBWriter}.

(** [newWriter], main.go lines 102-112. *)
Definition newWriter_Options (metadata : Metadata) (codes : list string)
  : Options :=
  {| DatabaseType := "geoip";
     Languages := codes;
     opt_IPVersion := int_of_uint (IPVersion metadata);
     opt_RecordSize := int_of_uint (RecordSize metadata);
     Inserter := ReplaceWith;
     DisableIPv4Aliasing := true;
     IncludeReservedNetworks := true |}.

Definition newWriter (metadata : Metadata) (codes : list string)
  : error + Tree :=
  mmdbwriter_New (newWriter_Options metadata codes).

(** [write], main.go lines 114-144.  [order_codes] and [order_data] are
    the orders in which the range loops of lines 117 and 126 visit
    [dataMap].  The tree behind the pointer [writer] is returned as the
    calls to [Insert] left it. *)
Definition write (order_codes order_data : list string) (writer : Tree)
    (dataMap : gmap string (list IPNet)) (output : string)
    (codes : list string) : IO Tree :=
  let codes :=
    if (length codes =? 0)%nat
    then foldl (λ codes entry, codes ++ [entry.1]) [] (range_map order_codes dataMap)
    else codes in
  let codes := sort_Strings codes in
  let codeMap : gmap string bool :=
    foldl (λ codeMap code, map_store codeMap code true) ∅ codes in
  writer ←
    foldM (λ writer entry,
             let '(code, data) := entry in
             if negb (map_index false codeMap code) then mret writer
             else foldM (λ writer item, check (Insert writer item code))
                        writer data)
          writer (range_map order_data dataMap);
  outputFile ← os_Create output;
  let written := WriteTo writer in
  file_Write outputFile written.1;;
  match written.2 with
  | Some err => fail err
  | None => mret writer
  end.
End encoder.

(** ** Releases *)

(** [github.ReleaseAsset] and [github.RepositoryRelease], the fields read. *)
Record ReleaseAsset : Type := mkReleaseAsset {
  asset_Name : string;
  BrowserDownloadURL : string
}.

Record RepositoryRelease : Type := mkRepositoryRelease {
  release_Name : string;
  Assets : list ReleaseAsset
}.

Class GitHubPkg : Type := {
  GetReleaseByTag : string → string → string → error + RepositoryRelease;
  GetLatestRelease : string → string → error + RepositoryRelease
}.

(** [option.DefaultHeadlessRule], [option.HeadlessRule] and
    [option.PlainRuleSet] of sing-box, the fields set. *)
Record DefaultHeadlessRule : Type := mkDefaultHeadlessRule {
  IPCIDR : list string
}.

Record HeadlessRule : Type := mkHeadlessRule {
  rule_Type : string;
  DefaultOptions : DefaultHeadlessRule
}.

Record PlainRuleSet : Type := mkPlainRuleSet { Rules : list HeadlessRule }.

Definition RuleTypeDefault : string := "default".

(** [srs.Write]: the bytes that reach the file and its error. *)
Class SRSPkg : Type := {
  srs_Write : PlainRuleSet → string * option error
}.

(** [strings.SplitN(s, sep, 2)] for a one-byte separator. *)
Fixpoint SplitN2 (s : string) (sep : ascii) : list string :=
  match s with
  | EmptyString => [EmptyString]
  | String c s' =>
      if Ascii.eqb c sep then [EmptyString; s']
      else match SplitN2 s' sep with
           | t :: rest => String c t :: rest
           | [] => [String c EmptyString]
           end
  end.

(** The orders in which the range loops of one run of [release] visit the
    country map: line 260, lines 117 and 126 of the first [write], line 126
    of the second, and line 288. *)
Record Orders : Type := mkOrders {
  order_allCodes : list string;
  order_write_codes : list string;
  order_write_data : list string;
  order_write_cn : list string;
  order_emit : list string
}.

Section release.
Context `{!NetPkg, !HttpPkg, !OSPkg, !MaxMindDB, !MMDBWriter, !GitHubPkg, !SRSPkg}.

(** [fetch], main.go lines 42-58.  Both callers pass [owner/repo]. *)
Definition fetch (from : string) : IO RepositoryRelease :=
  let fixedRelease := os_Getenv "FIXED_RELEASE" in
  let names := SplitN2 from "/"%char in
  if negb (String.eqb fixedRelease "")
  then check (GetReleaseByTag (nth 0 names "") (nth 1 names "") fixedRelease)
  else check (GetLatestRelease (nth 0 names "") (nth 1 names "")).

(** [get], main.go lines 60-68. *)
Definition get (downloadURL : string) : IO string :=
  log_Info ["download "; downloadURL];;
  response ← check (http_Get downloadURL);
  check (io_ReadAll response).

(** [download], main.go lines 70-78. *)
Definition download (release : RepositoryRelease) : IO string :=
  match List.find (λ it, String.eqb (asset_Name it) "Country.mmdb") (Assets release) with
  | None => fail (E_New ["Country.mmdb not found in upstream release ";
                         release_Name release])
  | Some geoipAsset => get (BrowserDownloadURL geoipAsset)
  end.

(** [setActionOutput], main.go lines 329-331. *)
Definition setActionOutput (name content : string) : IO unit :=
  os_Stdout_WriteString ("::set-output name=" +:+ name +:+ "::" +:+ content +:+ LF).

(** The body of the loop over [countryMap], main.go lines 289-322. *)
Definition release_country (ruleSetOutput : string) (_ : unit)
    (entry : string * list IPNet) : IO unit :=
  let '(countryCode, ipNets) := entry in
  let headlessRule :=
    mkDefaultHeadlessRule
      (foldl (λ cidrs cidr, cidrs ++ [IPNet_String cidr]) [] ipNets) in
  let plainRuleSet :=
    mkPlainRuleSet [mkHeadlessRule RuleTypeDefault headlessRule] in
  let srsPath :=
    filepath_Abs (filepath_Join ruleSetOutput ("geoip-" +:+ countryCode +:+ ".srs")) in
  log_Info ["write "; srsPath];;
  outputRuleSet ← os_Create srsPath;
  let written := srs_Write plainRuleSet in
  file_Write outputRuleSet written.1;;
  match written.2 with
  | Some err => fail err
  | None =>
      foldM (λ _ format, writeCIDRsToFile ipNets ruleSetOutput countryCode format)
            tt ["txt"; "list"; "yaml"; "snippet"]
  end.

(** [release] after the override, main.go lines 259-326. *)
Definition release_build (orders : Orders) (sourceRelease : RepositoryRelease)
    (metadata : Metadata) (countryMap : gmap string (list IPNet))
    (output ruleSetOutput : string) : IO unit :=
  let allCodes :=
    foldl (λ allCodes entry, allCodes ++ [entry.1]) []
          (range_map (order_allCodes orders) countryMap) in
  writer ← check (newWriter metadata allCodes);
  write (order_write_codes orders) (order_write_data orders)
        writer countryMap output [];;
  writer ← check (newWriter metadata ["cn"]);
  write [] (order_write_cn orders) writer countryMap "geoip-cn.db" ["cn"];;
  os_RemoveAll ruleSetOutput;;
  os_MkdirAll ruleSetOutput;;
  foldM (release_country ruleSetOutput) tt
        (range_map (order_emit orders) countryMap);;
  setActionOutput "tag" (release_Name sourceRelease).

(** [release] from the download on, main.go lines 241-326. *)
Definition release_pipeline (orders : Orders) (sourceRelease : RepositoryRelease)
    (output ruleSetOutput : string) : IO unit :=
  binary ← download sourceRelease;
  let '(metadata, countryMap, err) := parse binary in
  match err with
  | Some err => fail err
  | None =>
      chinaCIDRs ← fetchChinaIPCIDR;
      let countryMap := map_store countryMap "cn" chinaCIDRs in
      release_build orders sourceRelease metadata countryMap
                    output ruleSetOutput
  end.

(** [release], main.go lines 226-327. *)
Definition release (orders : Orders)
    (source destination output ruleSetOutput : string) : IO unit :=
  sourceRelease ← fetch source;
  destinationRelease ← attempt (fetch destination);
  let skip :=
    match destinationRelease with
    | inl _ => false
    | inr destinationRelease =>
        negb (String.eqb (os_Getenv "NO_SKIP") "true")
        && Contains (release_Name destinationRelease) (release_Name sourceRelease)
    end in
  match destinationRelease with
  | inl _ => log_Warn ["missing destination latest release"]
  | inr _ => mret tt
  end;;
  if skip then
    log_Info ["already latest"];;
    setActionOutput "skip" "true"
  else release_pipeline orders sourceRelease output ruleSetOutput.

(** [main], main.go lines 333-338: the error [log.Fatal] would report. *)
Definition main (orders : Orders) : IO unit :=
  release orders "Dreamacro/maxmind-geoip" "caocaocc/geoip" "geoip.db" "rule-set".
End release.

(** ** The spec's wording, for comparison with the code *)

(** The strings of a list, one after the other. *)
Definition join (l : list string) : string := foldr String.append "" l.

(** The world after more log entries. *)
Definition logging (w : World) (entries : list LogEntry) : World :=
  mkWorld (files w) (logged w ++ entries) (stdout w).

Section wording.
Context `{!NetPkg}.

(** The line of one network in each of the four formats (spec 4.5). *)
Definition spec_line (format : string) (cidr : IPNet) : string :=
  let family4 := if To4 (IP cidr) is Some _ then true else false in
  if String.eqb format "txt" then IPNet_String cidr
  else if String.eqb format "list" then
    (if family4 then "IP-CIDR," else "IP-CIDR6,") +:+ IPNet_String cidr
  else if String.eqb format "yaml" then "  - " +:+ IPNet_String cidr
  else (if family4 then "ip-cidr, " else "ip6-cidr, ") +:+ IPNet_String cidr.

Definition spec_header (format : string) : string :=
  if String.eqb format "yaml" then "payload:" +:+ LF else "".

(** The artifact: the header, then one line per network, in the order
    received. *)
Definition spec_artifact (format : string) (cidrs : list IPNet) : string :=
  spec_header format
  +:+ join ((λ cidr, spec_line format cidr +:+ LF) <$> cidrs).
End wording.

Definition formats : list string := ["txt"; "list"; "yaml"; "snippet"].

(** The leaves decoded before the first failing one, each with the code it
    is filed under, and that failure (spec 4.1: every leaf network grouped
    by its country attribute, lower-cased). *)
Fixpoint decoded (networks : list Leaf) (country : Enterprise)
  : list (string * IPNet) * option error :=
  match networks with
  | [] => ([], None)
  | leaf :: networks' =>
      match leaf_data leaf with
      | inl err => ([], Some err)
      | inr iso =>
          let country := if iso is Some iso then mkEnterprise iso else country in
          let rest := decoded networks' country in
          ((ToLower (RegisteredCountry_IsoCode country), leaf_net leaf) :: rest.1,
           rest.2)
      end
  end.

(** The networks filed under [code], in walk order. *)
Definition networks_of (code : string) (pairs : list (string * IPNet))
  : list IPNet :=
  (filter (λ p, p.1 = code) pairs).*2.

(** Filing one network under its code: [countryMap[code] =
    append(countryMap[code], ipNet)]. *)
Definition file_under (countryMap : gmap string (list IPNet))
    (entry : string * IPNet) : gmap string (list IPNet) :=
  map_store countryMap entry.1 (map_index [] countryMap entry.1 ++ [entry.2]).

(** The record of a leaf gives a country code that is not empty, when it
    can be retrieved. *)
Definition has_code (leaf : Leaf) : Prop :=
  match leaf_data leaf with
  | inl _ => True
  | inr (Some iso) => iso ≠ ""
  | inr None => False
  end.

Fixpoint chars (s : string) : list ascii :=
  match s with
  | EmptyString => []
  | String c s' => c :: chars s'
  end.

(** The calls to [Insert] that a sequence of map entries asks for: every
    network of an entry, tagged with the code of the entry. *)
Definition insertions (entries : list (string * list IPNet))
  : list (IPNet * string) :=
  entries ≫= (λ entry, (λ item, (item, entry.1)) <$> entry.2).

(** The entries whose code is in the set [codeMap]. *)
Definition retained (codeMap : gmap string bool)
    (entries : list (string * list IPNet)) : list (string * list IPNet) :=
  filter (λ entry, map_index false codeMap entry.1 = true) entries.

(** The first error among the leaf failure and the end of the walk. *)
Definition walk_error (failure walk_end : option error) : option error :=
  match failure with
  | Some err => Some err
  | None => walk_end
  end.

(** ** Sample implementations of the interfaces *)

(** These are used by the examples below; the theorems hold for every
    implementation. *)

(** *** Dotted-decimal IPv4 for package net *)

Definition digit (c : ascii) : option N :=
  let n := N_of_ascii c in
  if ((48 <=? n) && (n <=? 57))%N then Some (n - 48)%N else None.

Fixpoint decimal_from (acc : N) (s : string) : option N :=
  match s with
  | EmptyString => Some acc
  | String c s' =>
      match digit c with
      | Some d => decimal_from (acc * 10 + d) s'
      | None => None
      end
  end.

(** A decimal number without sign; [None] for the empty string. *)
Definition decimal (s : string) : option N :=
  match s with
  | EmptyString => None
  | _ => decimal_from 0 s
  end.

(** A field of a dotted address: at most 255, no leading zero. *)
Definition octet (s : string) : option N :=
  match s, decimal s with
  | String "0" (String _ _), _ => None
  | _, Some n => if (n <=? 255)%N then Some n else None
  | _, None => None
  end.

Fixpoint split_on (sep : ascii) (s : string) : list string :=
  match s with
  | EmptyString => [EmptyString]
  | String c s' =>
      if Ascii.eqb c sep then EmptyString :: split_on sep s'
      else match split_on sep s' with
           | t :: rest => String c t :: rest
           | [] => [String c EmptyString]
           end
  end.

Definition byte_of_N (n : N) : byte := default x00 (Byte.of_N n).

(** [net.CIDRMask(ones, 8 * len)]. *)
Fixpoint CIDRMask (ones : N) (len : nat) : list byte :=
  match len with
  | O => []
  | S len' =>
      if (8 <=? ones)%N then xff :: CIDRMask (ones - 8) len'
      else byte_of_N (N.land 255 (N.shiftl 255 (8 - ones))) :: CIDRMask 0 len'
  end.

Definition mask_bytes (ip mask : list byte) : list byte :=
  zip_with (λ b m, byte_of_N (N.land (Byte.to_N b) (Byte.to_N m))) ip mask.

Definition parse_ipv4_cidr (s : string) : error + IPNet :=
  match split_on "/" s with
  | [addr; ones] =>
      match octet <$> split_on "." addr, decimal ones with
      | [Some a; Some b; Some c; Some d], Some n =>
          if (n <=? 32)%N then
            let m := CIDRMask n 4 in
            inr (mkIPNet (mask_bytes (byte_of_N <$> [a; b; c; d]) m) m)
          else inl (Error ("invalid CIDR address: " +:+ s))
      | _, _ => inl (Error ("invalid CIDR address: " +:+ s))
      end
  | _ => inl (Error ("invalid CIDR address: " +:+ s))
  end.

(** The number of leading one bits of a byte, and of a mask that consists
    of ones followed by zeros ([IPMask.Size]). *)
Definition byte_ones (b : byte) : option N :=
  let n := Byte.to_N b in
  if (n =? 255)%N then Some 8%N else if (n =? 254)%N then Some 7%N
  else if (n =? 252)%N then Some 6%N else if (n =? 248)%N then Some 5%N
  else if (n =? 240)%N then Some 4%N else if (n =? 224)%N then Some 3%N
  else if (n =? 192)%N then Some 2%N else if (n =? 128)%N then Some 1%N
  else if (n =? 0)%N then Some 0%N else None.

Fixpoint mask_ones (mask : list byte) : option N :=
  match mask with
  | [] => Some 0%N
  | b :: mask' =>
      match byte_ones b with
      | Some 8%N => (λ n, 8 + n)%N <$> mask_ones mask'
      | Some k => if isZeros mask' then Some k else None
      | None => None
      end
  end.

Definition dotted (ip : list byte) : string :=
  String.concat "." ((λ b, pretty (Byte.to_N b)) <$> ip).

Definition ipv4_cidr_string (n : IPNet) : string :=
  match To4 (IP n), mask_ones (Mask n) with
  | Some ip, Some ones => dotted ip +:+ "/" +:+ pretty ones
  | _, _ => "<nil>"
  end.

Definition ipv4_net : NetPkg :=
  {| ParseCIDR := parse_ipv4_cidr; IPNet_String := ipv4_cidr_string |}.

(** *** An operating system where every file can be created *)

Definition plain_os : OSPkg :=
  {| os_Getenv := λ _, "";
     create_error := λ _ _, None;
     mkdir_error := λ _ _, None;
     remove_all := λ dir fs,
       filter (λ file, ¬ String.prefix ("/" +:+ dir +:+ "/") file.1) fs;
     filepath_Join := λ dir name, dir +:+ "/" +:+ name;
     filepath_Abs := λ path, "/" +:+ path |}.

(** *** HTTP from a table of pages, given as lines *)

Definition served (pages : gmap string (list string)) : HttpPkg :=
  {| Body := list string;
     http_Get := λ url,
       match pages !! url with
       | Some body => inr body
       | None => inl (Error ("Get " +:+ url))
       end;
     io_ReadAll := λ body, inr (String.concat LF body);
     scan_lines := λ body, (body, None) |}.

(** *** A database decoder knowing one image *)

Definition single_db (image : string) (db : Reader) : MaxMindDB :=
  {| FromBytes := λ binary,
       if String.eqb binary image then inr db
       else inl (Error "invalid MaxMind DB file") |}.

(** *** A writer that records the calls it receives *)

Definition recorder : MMDBWriter :=
  {| Tree := list (IPNet * string);
     mmdbwriter_New := λ _, inr [];
     Insert := λ tree network value, inr (tree ++ [(network, value)]);
     WriteTo := λ tree, (String.concat "," (snd <$> tree), None) |}.

(** *** A trie with replace-on-conflict insertion *)

(** Modelled from the spec: the trie of the external writer package, which
    is not part of the repository.  Spec 4.4: every network is inserted
    tagged with its code as a string value, "using replace-on-conflict
    insertion order - if two networks from different codes overlap, the
    most-recently-inserted wins for the overlapping region".  A node is
    empty, holds a value for its whole range, or forks on the next bit. *)
Inductive node : Type :=
| Empty
| Data (value : string)
| Fork (zero one : node).

(** Two halves holding the same value are one range again. *)
Definition fork (zero one : node) : node :=
  match zero, one with
  | Data a, Data b => if String.eqb a b then Data a else Fork zero one
  | _, _ => Fork zero one
  end.

Fixpoint replace_at (prefix : list bool) (value : string) (n : node) : node :=
  match prefix with
  | [] => Data value
  | bit :: prefix' =>
      let halves :=
        match n with
        | Fork zero one => (zero, one)
        | Empty | Data _ => (n, n)
        end in
      if bit : bool
      then fork halves.1 (replace_at prefix' value halves.2)
      else fork (replace_at prefix' value halves.1) halves.2
  end.

(** The value the trie holds for the range that starts with [prefix]:
    [None] when the range is empty or split further. *)
Fixpoint value_at (prefix : list bool) (n : node) : option string :=
  match n, prefix with
  | Data value, _ => Some value
  | Empty, _ => None
  | Fork zero one, bit :: prefix' =>
      value_at prefix' (if bit : bool then one else zero)
  | Fork _ _, [] => None
  end.

Definition byte_bits (b : byte) : list bool :=
  (λ i, N.testbit (Byte.to_N b) i) <$> [7; 6; 5; 4; 3; 2; 1; 0]%N.

Definition ip_bits (ip : list byte) : list bool := ip ≫= byte_bits.

(** The bits a network occupies in a tree of the given IP version: an IPv4
    network sits below [::/96] in an IPv6 tree. *)
Definition trie_prefix (ipVersion : Z) (network : IPNet) : error + list bool :=
  match mask_ones (Mask network) with
  | None => inl (Error "mask is not a prefix length")
  | Some ones =>
      let bits := take (N.to_nat ones) (ip_bits (IP network)) in
      if (length (IP network) =? IPv4len)%nat then
        inr (if (ipVersion =? 6)%Z then replicate 96 false ++ bits else bits)
      else if (length (IP network) =? IPv6len)%nat then
        if (ipVersion =? 6)%Z then inr bits
        else inl (Error "cannot insert an IPv6 network into an IPv4 tree")
      else inl (Error "invalid IP address")
  end.

Record trie : Type := mkTrie { trie_Options : Options; trie_root : node }.

Definition trie_New (opts : Options) : error + trie :=
  if ((opt_IPVersion opts =? 4) || (opt_IPVersion opts =? 6))%Z
     && ((opt_RecordSize opts =? 24) || (opt_RecordSize opts =? 28)
         || (opt_RecordSize opts =? 32))%Z
  then inr (mkTrie opts Empty)
  else inl (Error "unsupported IP version or record size").

Definition trie_Insert (tree : trie) (network : IPNet) (value : string)
  : error + trie :=
  match trie_prefix (opt_IPVersion (trie_Options tree)) network with
  | inl err => inl err
  | inr prefix =>
      inr (mkTrie (trie_Options tree) (replace_at prefix value (trie_root tree)))
  end.

(** The serialised tree, in prefix order. *)
Fixpoint node_bytes (n : node) : string :=
  match n with
  | Empty => "0"
  | Data value => "=" +:+ value +:+ ";"
  | Fork zero one => "(" +:+ node_bytes zero +:+ node_bytes one +:+ ")"
  end.

Definition trie_WriteTo (tree : trie) : string * option error :=
  (pretty (opt_IPVersion (trie_Options tree)) +:+ "/"
   +:+ pretty (opt_RecordSize (trie_Options tree)) +:+ ":"
   +:+ node_bytes (trie_root tree), None).

Definition replace_trie : MMDBWriter :=
  {| Tree := trie;
     mmdbwriter_New := trie_New;
     Insert := trie_Insert;
     WriteTo := trie_WriteTo |}.

(** *** Releases from a table, rule sets as plain lines *)

Definition hosted (releases : gmap string RepositoryRelease) : GitHubPkg :=
  let find owner repo :=
    match releases !! (owner +:+ "/" +:+ repo) with
    | Some r => inr r
    | None => inl (Error "404 Not Found")
    end in
  {| GetReleaseByTag := λ owner repo _, find owner repo;
     GetLatestRelease := find |}.

Definition plain_srs : SRSPkg :=
  {| srs_Write := λ ruleSet,
       (String.concat LF (Rules ruleSet ≫= (λ rule, IPCIDR (DefaultOptions rule))),
        None) |}.

(** *** The data of the examples *)

Definition world0 : World := mkWorld ∅ [] "".

Definition net_1_2_3_0 : IPNet := mkIPNet [x01; x02; x03; x00] [xff; xff; xff; x00].
Definition net_9_9_9_0 : IPNet := mkIPNet [x09; x09; x09; x00] [xff; xff; xff; x00].
Definition net_1_1_1_0 : IPNet := mkIPNet [x01; x01; x01; x00] [xff; xff; xff; x00].
Definition net_2_2_2_0 : IPNet := mkIPNet [x02; x02; x02; x00] [xff; xff; xfe; x00].
Definition net_1_0_0_0 : IPNet := mkIPNet [x01; x00; x00; x00] [xff; x00; x00; x00].

(** The two sources of [urls]: the first has a comment, a line that is no
    CIDR, and padding; the second repeats a network of the first. *)
Definition china_pages : gmap string (list string) :=
  {[ "https://raw.githubusercontent.com/misakaio/chnroutes2/master/chnroutes.txt" :=
       ["# china"; "1.1.1.0/24"; "bogus"; " 2.2.2.0/23 "; ""];
     "https://raw.githubusercontent.com/gaoyifan/china-operator-ip/ip-lists/china6.txt" :=
       ["1.1.1.0/24"] ]}.

(** Three databases: one with a leaf for [US] and one for [CN]; one whose
    second record cannot be retrieved; one whose only record names no
    registered country. *)
Definition two_country_db : Reader :=
  mkReader (mkMetadata 4 24)
    [mkLeaf net_1_2_3_0 (inr (Some "US")); mkLeaf net_9_9_9_0 (inr (Some "CN"))]
    None.

Definition broken_db : Reader :=
  mkReader (mkMetadata 4 24)
    [mkLeaf net_1_2_3_0 (inr (Some "US"));
     mkLeaf net_9_9_9_0 (inl (Error "unexpected end of database"))]
    None.

Definition anonymous_db : Reader :=
  mkReader (mkMetadata 4 24) [mkLeaf net_1_2_3_0 (inr None)] None.

(** The upstream release, its asset served next to the two sources. *)
Definition upstream : RepositoryRelease :=
  mkRepositoryRelease "20240101"
    [mkReleaseAsset "Country.mmdb" "https://example.org/Country.mmdb"].

Definition release_pages : gmap string (list string) :=
  <["https://example.org/Country.mmdb" := ["img"]]> china_pages.

Definition orders_us_cn : Orders :=
  mkOrders ["us"; "cn"] ["us"; "cn"] ["us"; "cn"] ["us"; "cn"] ["us"; "cn"].

(** Two country maps: one with a network for each of [cn] and [us]; one
    where the network of [us] lies inside the network of [cn]. *)
Definition disjoint_map : gmap string (list IPNet) :=
  {[ "cn" := [net_1_1_1_0]; "us" := [net_1_2_3_0] ]}.

Definition overlapping_map : gmap string (list IPNet) :=
  {[ "cn" := [net_1_0_0_0]; "us" := [net_1_2_3_0] ]}.

(** The empty IPv4 trie [newWriter] creates for them. *)
Definition empty_trie : trie :=
  mkTrie (newWriter_Options (mkMetadata 4 24) ["cn"; "us"]) Empty.

(** The bits of [1.2.3.0/24], and the code that the trie a run of [write]
    returns holds for that range. *)
Definition prefix_1_2_3 : list bool := take 24 (ip_bits (IP net_1_2_3_0)).

Definition owner_1_2_3 (run : (error + trie) * World) : option string :=
  match run.1 with
  | inr tree => value_at prefix_1_2_3 (trie_root tree)
  | inl _ => None
  end.

(** ** Outcomes of the encoder and the emitters *)

Section outcomes.
Context `{!NetPkg, !HttpPkg, !OSPkg, !MMDBWriter}.

(** The calls to [Insert] one after the other, up to the first that fails. *)
Fixpoint insert_all (writer : Tree) (calls : list (IPNet * string))
  : error + Tree :=
  match calls with
  | [] => inr writer
  | call :: calls' =>
      match Insert writer call.1 call.2 with
      | inl err => inl err
      | inr writer' => insert_all writer' calls'
      end
  end.

(** Creating the output file and serialising a tree into it, lines 137-143
    of [write]. *)
Definition write_file (output : string) (tree : Tree) (w : World)
  : (error + Tree) * World :=
  match create_error (files w) output with
  | Some err => (inl err, w)
  | None =>
      (match (WriteTo tree).2 with
       | Some err => inl err
       | None => inr tree
       end,
       mkWorld (<[output := (WriteTo tree).1]> (files w)) (logged w) (stdout w))
  end.

(** The path [writeCIDRsToFile] writes to. *)
Definition artifact_path (outputDir countryCode format : string) : string :=
  filepath_Abs (filepath_Join outputDir
                  ("geoip-" +:+ countryCode +:+ "." +:+ format)).

(** What [writeCIDRsToFile] writes for a format, known or not. *)
Definition emitted (format : string) (cidrs : list IPNet) : string :=
  if bool_decide (format ∈ formats) then spec_artifact format cidrs else "".

(** How the reading of a source fails: it cannot be retrieved, or the
    scanner stops with an error. *)
Definition source_error (url : string) : option error :=
  match http_Get url with
  | inl err => Some err
  | inr resp => (scan_lines resp).2
  end.
End outcomes.

(** The number of networks a country map holds. *)
Definition group_sizes (countryMap : gmap string (list IPNet)) : nat :=
  sum_list (length <$> (map_to_list countryMap).*2).

(** An IPv6 network, [2001:db8::/32]. *)
Definition net_2001_db8 : IPNet :=
  mkIPNet [x20; x01; x0d; xb8; x00; x00; x00; x00;
           x00; x00; x00; x00; x00; x00; x00; x00]
          [xff; xff; xff; xff; x00; x00; x00; x00;
           x00; x00; x00; x00; x00; x00; x00; x00].

(** A writer whose [WriteTo] stops after the first four bytes. *)
Definition short_trie : MMDBWriter :=
  {| Tree := trie;
     mmdbwriter_New := trie_New;
     Insert := trie_Insert;
     WriteTo := λ tree,
       (String.substring 0 4 (trie_WriteTo tree).1, Some (Error "short write")) |}.

(** The first source alone: the second cannot be retrieved. *)
Definition first_page_only : gmap string (list string) :=
  {[ "https://raw.githubusercontent.com/misakaio/chnroutes2/master/chnroutes.txt" :=
       ["# china"; "1.1.1.0/24"; "bogus"; " 2.2.2.0/23 "; ""] ]}.

(** The destination repository after it has published the upstream release,
    and before. *)
Definition published : RepositoryRelease :=
  mkRepositoryRelease "Released on 20240101" [].

Definition both_hosted : GitHubPkg :=
  hosted {[ "Dreamacro/maxmind-geoip" := upstream; "caocaocc/geoip" := published ]}.

Definition upstream_hosted : GitHubPkg :=
  hosted {[ "Dreamacro/maxmind-geoip" := upstream ]}.

(** An operating system without room for a new file. *)
Definition full_disk : OSPkg :=
  {| os_Getenv := λ _, "";
     create_error := λ _ _, Some (Error "no space left on device");
     mkdir_error := λ _ _, None;
     remove_all := λ _ fs, fs;
     filepath_Join := λ dir name, dir +:+ "/" +:+ name;
     filepath_Abs := λ path, "/" +:+ path |}.

(** ** Outcomes of a release *)

Section release_outcomes.
Context `{!NetPkg, !OSPkg, !SRSPkg, !GitHubPkg}.

(** The rule set [release] builds for the ranges of one country: a single
    default rule with the CIDR strings, in order. *)
Definition rule_set_of (ipNets : list IPNet) : PlainRuleSet :=
  mkPlainRuleSet
    [mkHeadlessRule RuleTypeDefault
       (mkDefaultHeadlessRule (IPNet_String <$> ipNets))].

Definition srs_path (ruleSetOutput countryCode : string) : string :=
  filepath_Abs (filepath_Join ruleSetOutput ("geoip-" +:+ countryCode +:+ ".srs")).

(** The files of one country: the rule set, then the four text artifacts. *)
Definition country_files (ruleSetOutput countryCode : string)
    (ipNets : list IPNet) (fs : gmap string string) : gmap string string :=
  foldl (λ fs format,
           <[artifact_path ruleSetOutput countryCode format
             := spec_artifact format ipNets]> fs)
        (<[srs_path ruleSetOutput countryCode
           := (srs_Write (rule_set_of ipNets)).1]> fs)
        formats.

Definition country_log (ruleSetOutput countryCode : string) : list LogEntry :=
  Info ["write "; srs_path ruleSetOutput countryCode]
  :: ((λ format, Info ["write "; artifact_path ruleSetOutput countryCode format])
      <$> formats).

(** The release [fetch] asks GitHub for. *)
Definition requested (owner repo : string) : error + RepositoryRelease :=
  if String.eqb (os_Getenv "FIXED_RELEASE") ""
  then GetLatestRelease owner repo
  else GetReleaseByTag owner repo (os_Getenv "FIXED_RELEASE").
End release_outcomes.

(** A release with two assets of the wanted name, after one of another
    name. *)
Definition crowded : RepositoryRelease :=
  mkRepositoryRelease "20240102"
    [mkReleaseAsset "GeoLite2-ASN.mmdb" "https://example.org/asn";
     mkReleaseAsset "Country.mmdb" "https://example.org/Country.mmdb";
     mkReleaseAsset "Country.mmdb" "https://example.org/other"].

(** An environment that asks for a rebuild. *)
Definition no_skip_os : OSPkg :=
  {| os_Getenv := λ name, if String.eqb name "NO_SKIP" then "true" else "";
     create_error := λ _ _, None;
     mkdir_error := λ _ _, None;
     remove_all := λ dir fs,
       filter (λ file, ¬ String.prefix ("/" +:+ dir +:+ "/") file.1) fs;
     filepath_Join := λ dir name, dir +:+ "/" +:+ name;
     filepath_Abs := λ path, "/" +:+ path |}.

(** The files and the log of the loop of [release] over the countries. *)
Definition countries_files `{!NetPkg, !OSPkg, !SRSPkg} (ruleSetOutput : string)
    (entries : list (string * list IPNet)) (fs : gmap string string)
  : gmap string string :=
  foldl (λ fs entry, country_files ruleSetOutput entry.1 entry.2 fs) fs entries.

Definition countries_log `{!OSPkg} (ruleSetOutput : string)
    (entries : list (string * list IPNet)) : list LogEntry :=
  entries ≫= (λ entry, country_log ruleSetOutput entry.1).

(** A rule-set writer that refuses an empty rule. *)
Definition strict_srs : SRSPkg :=
  {| srs_Write := λ ruleSet,
       if bool_decide (Rules ruleSet ≫= (λ rule, IPCIDR (DefaultOptions rule)) = [])
       then ("SRS", Some (Error "empty rule"))
       else (String.concat LF (Rules ruleSet ≫= (λ rule, IPCIDR (DefaultOptions rule))),
             None) |}.

(** * Properties *)

(** ** Strings and loops *)

Lemma append_cons (c : ascii) (s t : string) :
  String c s +:+ t = String c (s +:+ t).
Proof. reflexivity. Qed.

Lemma append_nil_l (s : string) : "" +:+ s = s.
Proof. reflexivity. Qed.

Lemma append_nil_r (s : string) : s +:+ "" = s.
Proof.
  induction s as [|c s IH]; [reflexivity|]. by rewrite append_cons, IH.
Qed.

Lemma append_assoc (a b c : string) : (a +:+ b) +:+ c = a +:+ (b +:+ c).
Proof.
  induction a as [|x a IH]; [reflexivity|]. by rewrite !append_cons, IH.
Qed.

(** A loop that appends one string per element writes their concatenation. *)
Lemma foldl_WriteString {A} (g : string → A → string) (f : A → string) l :
  (∀ writer x, g writer x = WriteString writer (f x)) →
  ∀ writer, foldl g writer l = writer +:+ join (f <$> l).
Proof.
  intros Hg. induction l as [|x l IH]; intros writer.
  - symmetry. apply append_nil_r.
  - change (foldl g (g writer x) l = writer +:+ (f x +:+ join (f <$> l))).
    rewrite IH, Hg. unfold WriteString. apply append_assoc.
Qed.

Section emit_facts.
Context `{!NetPkg, !OSPkg}.

(** The buffer of [writeCIDRsToFile] when the loop of a known format ends. *)
Lemma known_format_cases (format : string) :
  format ∈ formats →
  format = "txt" ∨ format = "list" ∨ format = "yaml" ∨ format = "snippet".
Proof.
  unfold formats. rewrite !elem_of_cons, elem_of_nil. tauto.
Qed.

Lemma os_Create_ok path w :
  create_error (files w) path = None →
  os_Create path w =
    (inr path, mkWorld (<[path := ""]> (files w)) (logged w) (stdout w)).
Proof. intros Hc. unfold os_Create. by rewrite Hc. Qed.

(** Creating a file, logging, then flushing [data] leaves [data] there. *)
Lemma create_log_flush path entry data w :
  create_error (files w) path = None →
  (file ← os_Create path; log_Info entry;; file_Write file data) w =
    (inr tt, mkWorld (<[path := data]> (files w))
                     (logged w ++ [Info entry]) (stdout w)).
Proof.
  intros Hc. unfold mbind, IO_bind. rewrite (os_Create_ok _ _ Hc).
  unfold log_Info, file_Write, map_index; simpl.
  by rewrite lookup_insert_eq, insert_insert_eq.
Qed.
End emit_facts.

(** ** Text format emitters *)

Section emit_claims.
Context `{!NetPkg, !OSPkg}.

(** C7.  For each of the formats txt, list, yaml and snippet, and every
    sequence of networks, [writeCIDRsToFile] leaves in the target file
    exactly the artifact of the spec: the header ([payload:] for yaml,
    nothing otherwise) followed by one line per network with the syntax
    of the format ([IP-CIDR,]/[IP-CIDR6,] and [ip-cidr, ]/[ip6-cidr, ]
    chosen by [To4]), in the order received, nothing filtered or sorted;
    it returns no error, also for the empty sequence, whose artifact is
    the header alone.  The file is the one [os.Create] could create. *)
Theorem emitters_project_in_order (cidrs : list IPNet)
    (outputDir countryCode format : string) (w : World) :
  let filePath :=
    filepath_Abs (filepath_Join outputDir
                    ("geoip-" +:+ countryCode +:+ "." +:+ format)) in
  format ∈ formats →
  create_error (files w) filePath = None →
  writeCIDRsToFile cidrs outputDir countryCode format w =
    (inr tt,
     mkWorld (<[filePath := spec_artifact format cidrs]> (files w))
             (logged w ++ [Info ["write "; filePath]]) (stdout w))
  ∧ spec_artifact format cidrs =
      spec_header format +:+ join ((λ cidr, spec_line format cidr +:+ LF) <$> cidrs)
  ∧ spec_artifact format [] = spec_header format
  ∧ (∀ cidr, spec_line "txt" cidr = IPNet_String cidr)
  ∧ (∀ cidr, spec_line "list" cidr =
       if To4 (IP cidr) is Some _ then "IP-CIDR," +:+ IPNet_String cidr
       else "IP-CIDR6," +:+ IPNet_String cidr)
  ∧ (∀ cidr, spec_line "yaml" cidr = "  - " +:+ IPNet_String cidr)
  ∧ (∀ cidr, spec_line "snippet" cidr =
       if To4 (IP cidr) is Some _ then "ip-cidr, " +:+ IPNet_String cidr
       else "ip6-cidr, " +:+ IPNet_String cidr).
Proof.
  intros filePath Hfmt Hc.
  split; [|split; [done|split; [|repeat split]]].
  - unfold writeCIDRsToFile. fold filePath.
    destruct (known_format_cases _ Hfmt) as [-> | [-> | [-> | ->]]];
      cbn [String.eqb Ascii.eqb Bool.eqb];
      unfold bufio_NewWriter;
      [ rewrite (foldl_WriteString _ (λ cidr, spec_line "txt" cidr +:+ LF))
      | rewrite (foldl_WriteString _ (λ cidr, spec_line "list" cidr +:+ LF))
      | rewrite (foldl_WriteString _ (λ cidr, spec_line "yaml" cidr +:+ LF))
      | rewrite (foldl_WriteString _ (λ cidr, spec_line "snippet" cidr +:+ LF)) ];
      try (intros writer cidr; unfold spec_line; cbn [String.eqb Ascii.eqb Bool.eqb];
           by destruct (To4 (IP cidr)));
      by rewrite (create_log_flush _ _ _ _ Hc).
  - unfold spec_artifact. apply append_nil_r.
  - intros cidr. unfold spec_line; cbn [String.eqb Ascii.eqb Bool.eqb].
    by destruct (To4 (IP cidr)).
  - intros cidr. unfold spec_line; cbn [String.eqb Ascii.eqb Bool.eqb].
    by destruct (To4 (IP cidr)).
Qed.

(** C10.  For a format string outside txt, list, yaml and snippet,
    [writeCIDRsToFile] still creates (or truncates) the target file,
    writes nothing to it and returns nil, whatever the networks. *)
Theorem unknown_format_empty_file (cidrs : list IPNet)
    (outputDir countryCode format : string) (w : World) :
  let filePath :=
    filepath_Abs (filepath_Join outputDir
                    ("geoip-" +:+ countryCode +:+ "." +:+ format)) in
  format ∉ formats →
  create_error (files w) filePath = None →
  writeCIDRsToFile cidrs outputDir countryCode format w =
    (inr tt,
     mkWorld (<[filePath := ""]> (files w))
             (logged w ++ [Info ["write "; filePath]]) (stdout w)).
Proof.
  intros filePath Hfmt Hc. unfold writeCIDRsToFile. fold filePath.
  unfold formats in Hfmt. rewrite !not_elem_of_cons in Hfmt.
  destruct Hfmt as (H1 & H2 & H3 & H4 & _).
  apply String.eqb_neq in H1, H2, H3, H4. rewrite H1, H2, H3, H4.
  by rewrite (create_log_flush _ _ _ _ Hc).
Qed.
End emit_claims.

(** The [list] emitter on the two networks of the spec's end-to-end
    scenario. *)
Lemma emitters_project_in_order_witness :
  "list" ∈ formats
  ∧ @create_error plain_os (files world0) "/rule-set/geoip-cn.list" = None
  ∧ @writeCIDRsToFile ipv4_net plain_os [net_1_1_1_0; net_2_2_2_0]
      "rule-set" "cn" "list" world0 =
      (inr tt,
       mkWorld {[ "/rule-set/geoip-cn.list" :=
                    "IP-CIDR,1.1.1.0/24" +:+ LF +:+ "IP-CIDR,2.2.2.0/23" +:+ LF ]}
               [Info ["write "; "/rule-set/geoip-cn.list"]] "").
Proof.
  assert (Hfmt : "list" ∈ formats) by (apply (bool_decide_unpack _); vm_compute; exact I).
  assert (Hc : @create_error plain_os (files world0) "/rule-set/geoip-cn.list" = None)
    by reflexivity.
  split; [exact Hfmt | split; [exact Hc |]].
  exact (proj1 (@emitters_project_in_order ipv4_net plain_os
                  [net_1_1_1_0; net_2_2_2_0] "rule-set" "cn" "list" world0 Hfmt Hc)).
Defined.

(** An unknown format, [json], on the same networks. *)
Lemma unknown_format_empty_file_witness :
  ("json" ∉ formats)
  ∧ @create_error plain_os (files world0) "/rule-set/geoip-cn.json" = None
  ∧ @writeCIDRsToFile ipv4_net plain_os [net_1_1_1_0; net_2_2_2_0]
      "rule-set" "cn" "json" world0 =
      (inr tt,
       mkWorld {[ "/rule-set/geoip-cn.json" := "" ]}
               [Info ["write "; "/rule-set/geoip-cn.json"]] "").
Proof.
  assert (Hfmt : "json" ∉ formats) by (apply (bool_decide_unpack _); vm_compute; exact I).
  assert (Hc : @create_error plain_os (files world0) "/rule-set/geoip-cn.json" = None)
    by reflexivity.
  split; [exact Hfmt | split; [exact Hc |]].
  exact (@unknown_format_empty_file ipv4_net plain_os
           [net_1_1_1_0; net_2_2_2_0] "rule-set" "cn" "json" world0 Hfmt Hc).
Defined.

(** ** CIDR source reader *)

Lemma logging_nil (w : World) : logging w [] = w.
Proof. destruct w. unfold logging; simpl. by rewrite app_nil_r. Qed.

Lemma logging_app (w : World) (a b : list LogEntry) :
  logging (logging w a) b = logging w (a ++ b).
Proof. unfold logging; simpl. by rewrite app_assoc. Qed.

Lemma omap_cons_list {A B} (f : A → option B) (x : A) (l : list A) :
  omap f (x :: l) = option_list (f x) ++ omap f l.
Proof. simpl. by destruct (f x). Qed.

Section reader_facts.
Context `{!NetPkg, !HttpPkg}.

Lemma scan_line_effect (allCIDRs : list IPNet) (text : string) (w : World) :
  scan_line allCIDRs text w =
    (inr (allCIDRs ++ omap line_network (option_list (effective text))),
     logging w (omap line_warning (option_list (effective text)))).
Proof.
  unfold scan_line, effective, line_network, line_warning.
  destruct (String.eqb (TrimSpace text) ""); simpl.
  { by rewrite app_nil_r, logging_nil. }
  destruct (HasPrefix (TrimSpace text) "#"); simpl.
  { by rewrite app_nil_r, logging_nil. }
  destruct (ParseCIDR (TrimSpace text)); simpl; [|by rewrite logging_nil].
  by rewrite app_nil_r.
Qed.

Lemma scan_lines_effect (tokens : list string) :
  ∀ (allCIDRs : list IPNet) (w : World),
  foldM scan_line allCIDRs tokens w =
    (inr (allCIDRs ++ omap line_network (omap effective tokens)),
     logging w (omap line_warning (omap effective tokens))).
Proof.
  induction tokens as [|text tokens IH]; intros allCIDRs w.
  - simpl. by rewrite app_nil_r, logging_nil.
  - change (foldM scan_line allCIDRs (text :: tokens) w)
      with (match scan_line allCIDRs text w with
            | (inl e, w') => (inl e, w')
            | (inr acc, w') => foldM scan_line acc tokens w'
            end).
    rewrite scan_line_effect, IH, logging_app, <- app_assoc.
    rewrite (omap_cons_list effective), !omap_app. done.
Qed.

Lemma fetch_url_effect (allCIDRs : list IPNet) (url : string) (w : World) :
  source_ok url →
  fetch_url allCIDRs url w =
    (inr (allCIDRs ++ source_networks url), logging w (source_warnings url)).
Proof.
  intros (resp & Hget & Herr).
  unfold fetch_url, source_networks, source_warnings, source_lines.
  rewrite Hget. unfold mbind, IO_bind, check.
  rewrite scan_lines_effect, Herr. done.
Qed.

Lemma fetch_sources_effect (sources : list string) :
  Forall source_ok sources →
  ∀ (allCIDRs : list IPNet) (w : World),
  foldM fetch_url allCIDRs sources w =
    (inr (allCIDRs ++ concat (source_networks <$> sources)),
     logging w (concat (source_warnings <$> sources))).
Proof.
  induction 1 as [|url sources Hok _ IH]; intros allCIDRs w.
  - simpl. by rewrite app_nil_r, logging_nil.
  - change (foldM fetch_url allCIDRs (url :: sources) w)
      with (match fetch_url allCIDRs url w with
            | (inl e, w') => (inl e, w')
            | (inr acc, w') => foldM fetch_url acc sources w'
            end).
    rewrite (fetch_url_effect _ _ _ Hok), IH, logging_app, <- app_assoc.
    done.
Qed.

Lemma networks_of_lines (sources : list string) :
  concat (source_networks <$> sources)
  = omap line_network (sources ≫= source_lines).
Proof.
  induction sources as [|url sources IH]; [done|].
  change (source_networks url ++ concat (source_networks <$> sources)
          = omap line_network (source_lines url ++ (sources ≫= source_lines))).
  by rewrite omap_app, IH.
Qed.

Lemma warnings_of_lines (sources : list string) :
  concat (source_warnings <$> sources)
  = omap line_warning (sources ≫= source_lines).
Proof.
  induction sources as [|url sources IH]; [done|].
  change (source_warnings url ++ concat (source_warnings <$> sources)
          = omap line_warning (source_lines url ++ (sources ≫= source_lines))).
  by rewrite omap_app, IH.
Qed.

Lemma valid_lines_parse (lines : list string) :
  Forall valid_cidr lines →
  Forall2 (λ line ipNet, ParseCIDR line = inr ipNet)
          lines (omap line_network lines)
  ∧ omap line_warning lines = [].
Proof.
  induction 1 as [|line lines [ipNet Hp] _ [IH1 IH2]]; [by split; constructor|].
  simpl. unfold line_network at 1, line_warning at 1. rewrite Hp. simpl.
  split; [by constructor | done].
Qed.
End reader_facts.

Section reader_claims.
Context `{!NetPkg, !HttpPkg}.

(** C5.  When the sources can be retrieved and read to their end, and
    their lines - trimmed, blank and comment lines left out - are N lines
    that parse as CIDRs and one line that does not, the reader returns no
    error and exactly the N networks of the valid lines, in order, and
    logs one warning, for the bad line: the failure of one line does not
    abort the read. *)
Theorem malformed_line_is_skipped (sources : list string) (w : World)
    (before after : list string) (bad : string) :
  Forall source_ok sources →
  sources ≫= source_lines = before ++ [bad] ++ after →
  Forall valid_cidr (before ++ after) →
  ¬ valid_cidr bad →
  ∃ nets : list IPNet,
    fetch_sources sources w =
      (inr nets, logging w [Warn ["Invalid CIDR:"; bad]])
    ∧ Forall2 (λ line ipNet, ParseCIDR line = inr ipNet) (before ++ after) nets
    ∧ length nets = length before + length after.
Proof.
  intros Hok Hlines Hvalid Hbad.
  apply Forall_app in Hvalid as [Hb Ha].
  destruct (valid_lines_parse _ Hb) as [Pb Wb].
  destruct (valid_lines_parse _ Ha) as [Pa Wa].
  assert (line_network bad = None ∧
          line_warning bad = Some (Warn ["Invalid CIDR:"; bad])) as [Nbad Wbad].
  { unfold line_network, line_warning.
    destruct (ParseCIDR bad) as [e|ipNet] eqn:Hp; [done|].
    destruct Hbad. by exists ipNet. }
  exists (omap line_network before ++ omap line_network after).
  split; [|split].
  - unfold fetch_sources. rewrite (fetch_sources_effect _ Hok).
    rewrite networks_of_lines, warnings_of_lines, Hlines, !omap_app.
    simpl. by rewrite Nbad, Wbad, Wb, Wa.
  - by apply Forall2_app.
  - rewrite length_app.
    by rewrite <- (Forall2_length _ _ _ Pb), <- (Forall2_length _ _ _ Pa).
Qed.

(** C6.  When the sources can be retrieved and read to their end, the
    reader returns the networks of the first source, followed by those of
    the second, and so on, in source order; nothing is removed: a network
    that two sources have appears twice in the output. *)
Theorem sources_are_concatenated (sources : list string) (w : World) :
  Forall source_ok sources →
  fetch_sources sources w =
    (inr (concat (source_networks <$> sources)),
     logging w (concat (source_warnings <$> sources)))
  ∧ ∀ (first between last : list string) (s1 s2 : string) (n : IPNet),
      sources = first ++ [s1] ++ between ++ [s2] ++ last →
      n ∈ source_networks s1 →
      n ∈ source_networks s2 →
      ∃ l1 l2 l3 : list IPNet,
        concat (source_networks <$> sources) = l1 ++ [n] ++ l2 ++ [n] ++ l3.
Proof.
  intros Hok. split.
  - unfold fetch_sources. by rewrite (fetch_sources_effect _ Hok).
  - intros first between last s1 s2 n -> H1 H2.
    apply list_elem_of_split in H1 as (a & b & E1).
    apply list_elem_of_split in H2 as (c & d & E2).
    exists (concat (source_networks <$> first) ++ a),
           (b ++ concat (source_networks <$> between) ++ c),
           (d ++ concat (source_networks <$> last)).
    rewrite !fmap_app, !concat_app. simpl. rewrite E1, E2, !app_nil_r.
    by rewrite <- !app_assoc.
Qed.
End reader_claims.

Lemma china_pages_ok : Forall (@source_ok (served china_pages)) urls.
Proof.
  unfold urls. repeat apply Forall_cons_2; [| |apply Forall_nil_2];
    (eexists; split; [vm_compute; reflexivity | reflexivity]).
Defined.

(** The two sources of the program, the first with the line [bogus] among
    its CIDRs. *)
Lemma malformed_line_is_skipped_witness :
  Forall (@source_ok (served china_pages)) urls
  ∧ urls ≫= @source_lines (served china_pages)
    = ["1.1.1.0/24"] ++ ["bogus"] ++ ["2.2.2.0/23"; "1.1.1.0/24"]
  ∧ Forall (@valid_cidr ipv4_net) (["1.1.1.0/24"] ++ ["2.2.2.0/23"; "1.1.1.0/24"])
  ∧ ¬ @valid_cidr ipv4_net "bogus"
  ∧ ∃ nets : list IPNet,
      @fetch_sources ipv4_net (served china_pages) urls world0 =
        (inr nets, logging world0 [Warn ["Invalid CIDR:"; "bogus"]])
      ∧ Forall2 (λ line ipNet, @ParseCIDR ipv4_net line = inr ipNet)
                (["1.1.1.0/24"] ++ ["2.2.2.0/23"; "1.1.1.0/24"]) nets
      ∧ length nets = length ["1.1.1.0/24"] + length ["2.2.2.0/23"; "1.1.1.0/24"].
Proof.
  assert (Hlines : urls ≫= @source_lines (served china_pages)
          = ["1.1.1.0/24"] ++ ["bogus"] ++ ["2.2.2.0/23"; "1.1.1.0/24"])
    by (vm_compute; reflexivity).
  assert (Hvalid : Forall (@valid_cidr ipv4_net)
                     (["1.1.1.0/24"] ++ ["2.2.2.0/23"; "1.1.1.0/24"])).
  { repeat apply Forall_cons_2; [| | |apply Forall_nil_2];
      (eexists; vm_compute; reflexivity). }
  assert (Hbad : ¬ @valid_cidr ipv4_net "bogus").
  { intros [ipNet Hp]. vm_compute in Hp. discriminate Hp. }
  split; [exact china_pages_ok | split; [exact Hlines | split; [exact Hvalid |
  split; [exact Hbad |]]]].
  exact (@malformed_line_is_skipped ipv4_net (served china_pages) urls world0
           ["1.1.1.0/24"] ["2.2.2.0/23"; "1.1.1.0/24"] "bogus"
           china_pages_ok Hlines Hvalid Hbad).
Defined.

(** The two sources of the program: [1.1.1.0/24] is in both. *)
Lemma sources_are_concatenated_witness :
  Forall (@source_ok (served china_pages)) urls
  ∧ (@fetch_sources ipv4_net (served china_pages) urls world0).1 =
      inr [net_1_1_1_0; net_2_2_2_0; net_1_1_1_0].
Proof.
  split; [exact china_pages_ok|].
  rewrite (proj1 (@sources_are_concatenated ipv4_net (served china_pages)
                    urls world0 china_pages_ok)).
  vm_compute. reflexivity.
Defined.

(** ** Binary trie decoder *)

Lemma parse_walk_decoded (networks : list Leaf) :
  ∀ (networks_Err : option error) (metadata : Metadata)
    (countryMap : gmap string (list IPNet)) (country : Enterprise),
  parse_walk networks networks_Err metadata countryMap country =
    (metadata, foldl file_under countryMap (decoded networks country).1,
     walk_error (decoded networks country).2 networks_Err).
Proof.
  induction networks as [|leaf networks IH]; intros e metadata m country; [done|].
  simpl. unfold Network. destruct (leaf_data leaf) as [err|[iso|]]; [done| |];
    rewrite IH; done.
Qed.

Lemma networks_of_cons (code : string) (entry : string * IPNet)
    (pairs : list (string * IPNet)) :
  networks_of code (entry :: pairs) =
    (if decide (entry.1 = code) then [entry.2] else []) ++ networks_of code pairs.
Proof.
  unfold networks_of. rewrite filter_cons. by destruct (decide (entry.1 = code)).
Qed.

Lemma filed_networks (pairs : list (string * IPNet)) :
  ∀ (countryMap : gmap string (list IPNet)) (code : string),
  map_index [] (foldl file_under countryMap pairs) code =
    map_index [] countryMap code ++ networks_of code pairs.
Proof.
  induction pairs as [|entry pairs IH]; intros m code.
  - unfold networks_of. simpl. by rewrite app_nil_r.
  - simpl. rewrite IH, networks_of_cons. unfold file_under, map_store, map_index.
    destruct (decide (entry.1 = code)) as [->|Hne].
    + rewrite lookup_insert_eq. simpl. by rewrite <- app_assoc.
    + by rewrite lookup_insert_ne.
Qed.

Lemma filed_keys (pairs : list (string * IPNet)) :
  ∀ (countryMap : gmap string (list IPNet)) (code : string),
  is_Some (foldl file_under countryMap pairs !! code) ↔
    is_Some (countryMap !! code) ∨ code ∈ pairs.*1.
Proof.
  induction pairs as [|entry pairs IH]; intros m code.
  - simpl. rewrite elem_of_nil. tauto.
  - simpl. rewrite IH, elem_of_cons. unfold file_under, map_store.
    destruct (decide (entry.1 = code)) as [->|Hne].
    + rewrite lookup_insert_eq. split; [tauto|]. intros _. left. by eexists.
    + rewrite lookup_insert_ne by done. split; [tauto|].
      intros [?|[?|?]]; [tauto|congruence|tauto].
Qed.

(** [decoded] stops at the first leaf whose record cannot be retrieved. *)
Lemma decoded_prefix (networks : list Leaf) :
  ∀ country : Enterprise,
  ∃ k : nat,
    (decoded networks country).1.*2 = leaf_net <$> take k networks
    ∧ match (decoded networks country).2 with
      | None => k = length networks
      | Some err =>
          ∃ leaf, networks !! k = Some leaf ∧ leaf_data leaf = inl err
      end.
Proof.
  induction networks as [|leaf networks IH]; intros country.
  - by exists 0.
  - simpl. destruct (leaf_data leaf) as [err|iso] eqn:Hd.
    + exists 0. split; [done|]. by exists leaf.
    + destruct (IH (if iso is Some iso then mkEnterprise iso else country))
        as (k & Hk & Hend).
      exists (S k). simpl. split; [f_equal; exact Hk|].
      revert Hend. destruct (decoded networks _).2; intros Hend;
        [exact Hend | by f_equal].
Qed.

Lemma isUpper_toLowerByte (c : ascii) : isUpper (toLowerByte c) = false.
Proof. by destruct c as [[] [] [] [] [] [] [] []]. Qed.

Lemma chars_ToLower (s : string) :
  Forall (λ c, isUpper c = false) (chars (ToLower s)).
Proof.
  induction s as [|c s IH]; simpl; constructor; [apply isUpper_toLowerByte | done].
Qed.

Lemma ToLower_empty (s : string) : ToLower s = "" → s = "".
Proof. by destruct s. Qed.

(** Every code [decoded] files a leaf under is the lower-cased content of
    the decode buffer: its initial content, or the code of a record. *)
Lemma decoded_codes (networks : list Leaf) :
  ∀ (country : Enterprise) (code : string),
  code ∈ (decoded networks country).1.*1 →
  code = ToLower (RegisteredCountry_IsoCode country)
  ∨ ∃ leaf iso, leaf ∈ networks ∧ leaf_data leaf = inr (Some iso)
                ∧ code = ToLower iso.
Proof.
  induction networks as [|leaf networks IH]; intros country code.
  - simpl. by rewrite elem_of_nil.
  - simpl. destruct (leaf_data leaf) as [err|iso] eqn:Hd.
    + simpl. by rewrite elem_of_nil.
    + simpl. rewrite elem_of_cons. intros [->|Hin].
      * destruct iso as [iso|]; [|by left].
        right. exists leaf, iso. split; [apply list_elem_of_here | done].
      * apply IH in Hin as [->|(leaf' & iso' & Hl & Hd' & ->)].
        -- destruct iso as [iso|]; [|by left].
           right. exists leaf, iso. split; [apply list_elem_of_here | done].
        -- right. exists leaf', iso'. split; [by apply list_elem_of_further | done].
Qed.

(** When no record lacks its code, the buffer's initial content is never
    used. *)
Lemma decoded_codes_present (networks : list Leaf) :
  Forall has_code networks →
  ∀ (country : Enterprise) (code : string),
  code ∈ (decoded networks country).1.*1 →
  ∃ leaf iso, leaf ∈ networks ∧ leaf_data leaf = inr (Some iso)
              ∧ iso ≠ "" ∧ code = ToLower iso.
Proof.
  induction 1 as [|leaf networks Hleaf _ IH]; intros country code.
  - simpl. by rewrite elem_of_nil.
  - simpl. unfold has_code in Hleaf.
    destruct (leaf_data leaf) as [err|[iso|]] eqn:Hd; [|simpl|done].
    + simpl. by rewrite elem_of_nil.
    + rewrite elem_of_cons. intros [->|Hin].
      * exists leaf, iso. split; [apply list_elem_of_here | done].
      * apply IH in Hin as (leaf' & iso' & Hl & Hd' & Hne & ->).
        exists leaf', iso'. split; [by apply list_elem_of_further | done].
Qed.

Section decoder_claims.
Context `{!NetPkg, !HttpPkg, !OSPkg, !MaxMindDB, !MMDBWriter, !SRSPkg}.

(** C3, as the code has it.  For every input, [parse] either fails on
    [FromBytes] and returns the error with an empty (nil) map, or walks
    the leaves: it returns the map that groups, by lower-cased code and in
    walk order, the leaves before the first one whose record cannot be
    retrieved - all of them when none fails, and then the error is the one
    the walk ended with, nil for a whole walk; a partly populated map
    comes with the error of the failing leaf.  Its caller
    [release] returns such an error at once and does nothing with the
    map. *)
Theorem parse_returns_walked_leaves (binary : string) :
  match FromBytes binary with
  | inl err => parse binary = (zero_Metadata, ∅, Some err)
  | inr db =>
      let walk := decoded (reader_leaves db) (mkEnterprise "") in
      ∃ (countryMap : gmap string (list IPNet)) (k : nat),
        parse binary =
          (reader_Metadata db, countryMap, walk_error walk.2 (reader_err db))
        ∧ (∀ code, map_index [] countryMap code = networks_of code walk.1)
        ∧ (∀ code, is_Some (countryMap !! code) ↔ code ∈ walk.1.*1)
        ∧ walk.1.*2 = leaf_net <$> take k (reader_leaves db)
        ∧ match walk.2 with
          | None => k = length (reader_leaves db)
          | Some err =>
              ∃ leaf, reader_leaves db !! k = Some leaf
                      ∧ leaf_data leaf = inl err
          end
  end
  ∧ ∀ (orders : Orders) (sourceRelease : RepositoryRelease)
      (output ruleSetOutput : string) (w w1 : World) (err : error),
      download sourceRelease w = (inr binary, w1) →
      (parse binary).2 = Some err →
      release_pipeline orders sourceRelease output ruleSetOutput w
      = (inl err, w1).
Proof.
  split.
  - unfold parse. destruct (FromBytes binary) as [err|db]; [done|].
    destruct (decoded_prefix (reader_leaves db) (mkEnterprise "")) as (k & Hk & Hend).
    eexists _, k. rewrite parse_walk_decoded.
    split; [reflexivity|]. split; [|split; [|by split]].
    + intros code. rewrite filed_networks. unfold map_index.
      by rewrite lookup_empty.
    + intros code. rewrite filed_keys, lookup_empty.
      split; [intros [[? ?]|?]; [done|done] | by right].
  - intros orders sr output ruleSetOutput w w1 err Hdl Hp.
    unfold release_pipeline, mbind, IO_bind. rewrite Hdl.
    destruct (parse binary) as [[metadata countryMap] e].
    simpl in Hp. by rewrite Hp.
Qed.

(** C9, as the code has it.  Every key of the map [parse] returns has no
    upper-case letter and is the lower-cased country code of some leaf
    record, unless it is the empty string, the code of the empty decode
    buffer; when every record that can be retrieved carries a code that is
    not empty, no key is the empty string. *)
Theorem parse_keys_are_lowercased_codes (binary : string) (db : Reader)
    (code : string) :
  FromBytes binary = inr db →
  is_Some ((parse binary).1.2 !! code) →
  Forall (λ c, isUpper c = false) (chars code)
  ∧ (code = ""
     ∨ ∃ leaf iso, leaf ∈ reader_leaves db
                   ∧ leaf_data leaf = inr (Some iso) ∧ code = ToLower iso)
  ∧ (Forall has_code (reader_leaves db) →
     code ≠ ""
     ∧ ∃ leaf iso, leaf ∈ reader_leaves db
                   ∧ leaf_data leaf = inr (Some iso) ∧ code = ToLower iso).
Proof.
  intros Hdb. unfold parse. rewrite Hdb, parse_walk_decoded. simpl.
  rewrite filed_keys, lookup_empty. intros [[? ?]|Hin]; [done|].
  pose proof (decoded_codes _ _ _ Hin) as Hcodes. simpl in Hcodes.
  split; [|split].
  - destruct Hcodes as [->|(leaf & iso & _ & _ & ->)]; [constructor|].
    apply chars_ToLower.
  - exact Hcodes.
  - intros Hall.
    destruct (decoded_codes_present _ Hall _ _ Hin)
      as (leaf & iso & Hl & Hd & Hne & ->).
    split; [|by exists leaf, iso].
    intros Hempty. by apply ToLower_empty in Hempty.
Qed.
End decoder_claims.

(** C3, the claim as stated fails: the second record of this database
    cannot be retrieved, and [parse] returns the error together with a map
    that holds the first leaf. *)
Lemma parse_partial_map_with_error :
  @parse (single_db "img" broken_db) "img" =
    (mkMetadata 4 24, {[ "us" := [net_1_2_3_0] ]},
     Some (Error "unexpected end of database")).
Proof. vm_compute. reflexivity. Qed.

(** The same database, downloaded by [release]: the error is returned and
    nothing is written. *)
Lemma parse_returns_walked_leaves_witness :
  @download (served release_pages) upstream world0 =
    (inr "img", logging world0 [Info ["download "; "https://example.org/Country.mmdb"]])
  ∧ (@parse (single_db "img" broken_db) "img").2 =
      Some (Error "unexpected end of database")
  ∧ @release_pipeline ipv4_net (served release_pages) plain_os
      (single_db "img" broken_db) replace_trie plain_srs
      orders_us_cn upstream "geoip.db" "rule-set" world0 =
      (inl (Error "unexpected end of database"),
       logging world0 [Info ["download "; "https://example.org/Country.mmdb"]]).
Proof.
  assert (Hdl : @download (served release_pages) upstream world0 =
    (inr "img", logging world0 [Info ["download "; "https://example.org/Country.mmdb"]]))
    by (vm_compute; reflexivity).
  assert (Hp : (@parse (single_db "img" broken_db) "img").2 =
                 Some (Error "unexpected end of database"))
    by (vm_compute; reflexivity).
  split; [exact Hdl | split; [exact Hp |]].
  exact (proj2 (@parse_returns_walked_leaves ipv4_net (served release_pages)
                  plain_os (single_db "img" broken_db) replace_trie plain_srs "img")
               orders_us_cn upstream "geoip.db" "rule-set" world0 _ _ Hdl Hp).
Defined.

(** C9, the claim as stated fails: the only record of this database names
    no registered country; [parse] succeeds and files its network under the
    empty string. *)
Lemma parse_empty_key :
  @parse (single_db "img" anonymous_db) "img" =
    (mkMetadata 4 24, {[ "" := [net_1_2_3_0] ]}, None).
Proof. vm_compute. reflexivity. Qed.

Lemma parse_keys_are_lowercased_codes_witness :
  @FromBytes (single_db "img" two_country_db) "img" = inr two_country_db
  ∧ is_Some ((@parse (single_db "img" two_country_db) "img").1.2 !! "us")
  ∧ Forall has_code (reader_leaves two_country_db)
  ∧ "us" ≠ ""
  ∧ Forall (λ c, isUpper c = false) (chars "us").
Proof.
  assert (Hdb : @FromBytes (single_db "img" two_country_db) "img" = inr two_country_db)
    by reflexivity.
  assert (Hkey : is_Some ((@parse (single_db "img" two_country_db) "img").1.2 !! "us"))
    by (vm_compute; eexists; reflexivity).
  assert (Hall : Forall has_code (reader_leaves two_country_db))
    by (repeat apply Forall_cons_2; [| |apply Forall_nil_2]; simpl; discriminate).
  pose proof (@parse_keys_are_lowercased_codes (single_db "img" two_country_db)
                "img" two_country_db "us" Hdb Hkey) as (Hlow & _ & Hne).
  split; [exact Hdb | split; [exact Hkey | split; [exact Hall | split;
    [exact (proj1 (Hne Hall)) | exact Hlow]]]].
Defined.

(** ** Override and build metadata *)

Section build_claims.
Context `{!NetPkg, !HttpPkg, !OSPkg, !MaxMindDB, !MMDBWriter, !SRSPkg}.

(** C4.  After the override [countryMap["cn"] = chinaCIDRs], the entry of
    [cn] is exactly the replacement sequence, whatever the decoder had
    produced for [cn] (nothing is merged), and every other key has the
    value it had; this is the map [release] builds the tries and the text
    files from. *)
Theorem override_replaces_cn (countryMap : gmap string (list IPNet))
    (chinaCIDRs : list IPNet) :
  let overridden := map_store countryMap "cn" chinaCIDRs in
  overridden !! "cn" = Some chinaCIDRs
  ∧ (∀ code, code ≠ "cn" → overridden !! code = countryMap !! code)
  ∧ ∀ (orders : Orders) (sourceRelease : RepositoryRelease)
      (output ruleSetOutput binary : string) (metadata : Metadata)
      (w w1 w2 : World),
      download sourceRelease w = (inr binary, w1) →
      parse binary = (metadata, countryMap, None) →
      fetchChinaIPCIDR w1 = (inr chinaCIDRs, w2) →
      release_pipeline orders sourceRelease output ruleSetOutput w
      = release_build orders sourceRelease metadata overridden
                      output ruleSetOutput w2.
Proof.
  intros overridden. unfold overridden, map_store. split; [|split].
  - apply lookup_insert_eq.
  - intros code Hne. by apply lookup_insert_ne.
  - intros orders sr output ruleSetOutput binary metadata w w1 w2 Hdl Hp Hf.
    unfold release_pipeline, mbind, IO_bind. rewrite Hdl, Hp.
    unfold mbind, IO_bind. by rewrite Hf.
Qed.

(** C8.  The metadata [parse] returns is the metadata of the decoded
    database, and [newWriter] creates the new trie with options whose IP
    version and record size are those of that metadata; the conversion
    from [uint] to [int] keeps every value below 2^63. *)
Theorem newWriter_keeps_addressing (binary : string) (db : Reader)
    (codes : list string) :
  FromBytes binary = inr db →
  (0 ≤ IPVersion (reader_Metadata db) < 2 ^ 63)%Z →
  (0 ≤ RecordSize (reader_Metadata db) < 2 ^ 63)%Z →
  let metadata := (parse binary).1.1 in
  metadata = reader_Metadata db
  ∧ newWriter metadata codes = mmdbwriter_New (newWriter_Options metadata codes)
  ∧ opt_IPVersion (newWriter_Options metadata codes)
    = IPVersion (reader_Metadata db)
  ∧ opt_RecordSize (newWriter_Options metadata codes)
    = RecordSize (reader_Metadata db).
Proof.
  intros Hdb Hv Hr metadata.
  assert (Hm : metadata = reader_Metadata db).
  { unfold metadata, parse. by rewrite Hdb, parse_walk_decoded. }
  rewrite Hm. split; [done|split; [done|]].
  unfold newWriter_Options, int_of_uint; simpl.
  destruct (Z.ltb_spec (IPVersion (reader_Metadata db)) (2 ^ 63));
    destruct (Z.ltb_spec (RecordSize (reader_Metadata db)) (2 ^ 63)); lia.
Qed.
End build_claims.

(** The decoded map of the two-country database, overridden by the networks
    of the two sources. *)
Lemma override_replaces_cn_witness :
  let countryMap : gmap string (list IPNet) :=
    {[ "us" := [net_1_2_3_0]; "cn" := [net_9_9_9_0] ]} in
  let chinaCIDRs := [net_1_1_1_0; net_2_2_2_0; net_1_1_1_0] in
  let w1 := logging world0 [Info ["download "; "https://example.org/Country.mmdb"]] in
  let w2 := logging w1 [Warn ["Invalid CIDR:"; "bogus"]] in
  @download (served release_pages) upstream world0 = (inr "img", w1)
  ∧ @parse (single_db "img" two_country_db) "img"
    = (mkMetadata 4 24, countryMap, None)
  ∧ @fetchChinaIPCIDR ipv4_net (served release_pages) w1 = (inr chinaCIDRs, w2)
  ∧ map_store countryMap "cn" chinaCIDRs
    = {[ "us" := [net_1_2_3_0]; "cn" := chinaCIDRs ]}
  ∧ @release_pipeline ipv4_net (served release_pages) plain_os
      (single_db "img" two_country_db) replace_trie plain_srs
      orders_us_cn upstream "geoip.db" "rule-set" world0
    = @release_build ipv4_net plain_os replace_trie plain_srs
        orders_us_cn upstream (mkMetadata 4 24)
        (map_store countryMap "cn" chinaCIDRs) "geoip.db" "rule-set" w2.
Proof.
  intros countryMap chinaCIDRs w1 w2.
  assert (Hdl : @download (served release_pages) upstream world0 = (inr "img", w1))
    by (vm_compute; reflexivity).
  assert (Hp : @parse (single_db "img" two_country_db) "img"
               = (mkMetadata 4 24, countryMap, None))
    by (vm_compute; reflexivity).
  assert (Hf : @fetchChinaIPCIDR ipv4_net (served release_pages) w1
               = (inr chinaCIDRs, w2))
    by (vm_compute; reflexivity).
  split; [exact Hdl | split; [exact Hp | split; [exact Hf | split]]].
  - vm_compute. reflexivity.
  - exact (proj2 (proj2 (@override_replaces_cn ipv4_net (served release_pages)
             plain_os (single_db "img" two_country_db) replace_trie plain_srs
             countryMap chinaCIDRs))
           orders_us_cn upstream "geoip.db" "rule-set" "img" (mkMetadata 4 24)
           world0 w1 w2 Hdl Hp Hf).
Defined.

(** The two-country database: an IPv4 trie with 24-bit records. *)
Lemma newWriter_keeps_addressing_witness :
  @FromBytes (single_db "img" two_country_db) "img" = inr two_country_db
  ∧ (0 ≤ IPVersion (reader_Metadata two_country_db) < 2 ^ 63)%Z
  ∧ (0 ≤ RecordSize (reader_Metadata two_country_db) < 2 ^ 63)%Z
  ∧ opt_IPVersion (newWriter_Options
                     (@parse (single_db "img" two_country_db) "img").1.1 ["cn"]) = 4%Z
  ∧ opt_RecordSize (newWriter_Options
                      (@parse (single_db "img" two_country_db) "img").1.1 ["cn"]) = 24%Z.
Proof.
  assert (Hdb : @FromBytes (single_db "img" two_country_db) "img" = inr two_country_db)
    by reflexivity.
  assert (Hv : (0 ≤ IPVersion (reader_Metadata two_country_db) < 2 ^ 63)%Z)
    by (simpl; lia).
  assert (Hr : (0 ≤ RecordSize (reader_Metadata two_country_db) < 2 ^ 63)%Z)
    by (simpl; lia).
  destruct (@newWriter_keeps_addressing (single_db "img" two_country_db) replace_trie
              "img" two_country_db ["cn"] Hdb Hv Hr) as (_ & _ & H4 & H24).
  split; [exact Hdb | split; [exact Hv | split; [exact Hr | split;
    [exact H4 | exact H24]]]].
Defined.

(** ** Binary trie encoder *)

Lemma foldM_cons {A B} (f : B → A → IO B) (b : B) (x : A) (l : list A)
    (w : World) :
  foldM f b (x :: l) w =
    match f b x w with
    | (inl e, w') => (inl e, w')
    | (inr b', w') => foldM f b' l w'
    end.
Proof. reflexivity. Qed.

Lemma foldM_app {A B} (f : B → A → IO B) (l1 l2 : list A) :
  ∀ (b : B) (w : World),
  foldM f b (l1 ++ l2) w =
    match foldM f b l1 w with
    | (inl e, w') => (inl e, w')
    | (inr b', w') => foldM f b' l2 w'
    end.
Proof.
  induction l1 as [|x l1 IH]; intros b w; [done|].
  rewrite <- app_comm_cons, !foldM_cons.
  destruct (f b x w) as [[e|b'] w']; [done | apply IH].
Qed.

Lemma foldM_fmap {A A' B} (f : B → A' → IO B) (g : A → A') (l : list A) :
  ∀ (b : B) (w : World),
  foldM f b (g <$> l) w = foldM (λ b x, f b (g x)) b l w.
Proof.
  induction l as [|x l IH]; intros b w; [done|].
  rewrite fmap_cons, !foldM_cons.
  destruct (f b (g x) w) as [[e|b'] w']; [done | apply IH].
Qed.

Lemma filter_all {A} (P : A → Prop) `{!∀ x, Decision (P x)} (l : list A) :
  Forall P l → filter P l = l.
Proof.
  induction 1 as [|x l Hx _ IH]; [done|].
  rewrite filter_cons_True by done. by rewrite IH.
Qed.

Lemma foldl_keys {V} (entries : list (string * V)) :
  ∀ codes : list string,
  foldl (λ codes entry, codes ++ [entry.1]) codes entries = codes ++ entries.*1.
Proof.
  induction entries as [|entry entries IH]; intros codes; simpl.
  - by rewrite app_nil_r.
  - by rewrite IH, <- app_assoc.
Qed.

(** The set [codeMap] of [write] holds exactly the codes of the list. *)
Lemma codeMap_index (codes : list string) :
  ∀ (codeMap : gmap string bool) (code : string),
  map_index false (foldl (λ codeMap code, map_store codeMap code true) codeMap codes) code
  = true ↔ map_index false codeMap code = true ∨ code ∈ codes.
Proof.
  induction codes as [|c codes IH]; intros codeMap code; simpl.
  - rewrite elem_of_nil. tauto.
  - rewrite IH, elem_of_cons. unfold map_store, map_index.
    destruct (decide (c = code)) as [->|Hne].
    + rewrite lookup_insert_eq. simpl. tauto.
    + rewrite lookup_insert_ne by done. split; [tauto|].
      intros [?|[?|?]]; [tauto | congruence | tauto].
Qed.

Lemma range_map_lookup {V} (order : list string) (m : gmap string V)
    (k : string) (v : V) :
  (k, v) ∈ range_map order m → m !! k = Some v.
Proof.
  unfold range_map. rewrite list_elem_of_omap. intros (k' & _ & Hk).
  destruct (m !! k') as [v'|] eqn:Hm; simpl in Hk; [|done].
  by inversion Hk; subst.
Qed.

(** A range loop meets every key of the map. *)
Lemma range_order_covers {V} (order : list string) (m : gmap string V)
    (k : string) (v : V) :
  range_order m order → m !! k = Some v → k ∈ (range_map order m).*1.
Proof.
  unfold range_order. intros Hperm Hk.
  apply list_elem_of_fmap. exists (k, v). split; [done|].
  unfold range_map. apply list_elem_of_omap. exists k. split; [|by rewrite Hk].
  rewrite Hperm. apply list_elem_of_fmap. exists (k, v). split; [done|].
  by apply elem_of_map_to_list.
Qed.

Section encoder_facts.
Context `{!OSPkg, !MMDBWriter}.

(** The two nested loops of [write], lines 126-136, are one loop over the
    calls the retained entries ask for, in the order of the entries. *)
Lemma insert_loop_flat (codeMap : gmap string bool)
    (entries : list (string * list IPNet)) :
  ∀ (writer : Tree) (w : World),
  foldM (λ writer entry,
           let '(code, data) := entry in
           if negb (map_index false codeMap code) then mret writer
           else foldM (λ writer item, check (Insert writer item code))
                      writer data)
        writer entries w
  = foldM (λ writer call, check (Insert writer call.1 call.2))
          writer (insertions (retained codeMap entries)) w.
Proof.
  induction entries as [|[code data] entries IH]; intros writer w; [done|].
  rewrite foldM_cons. unfold retained. rewrite filter_cons. simpl.
  destruct (map_index false codeMap code) eqn:Hc; simpl.
  - rewrite foldM_app, foldM_fmap. simpl.
    destruct (foldM _ writer data w) as [[e|writer'] w']; [done | apply IH].
  - apply IH.
Qed.

(** With no code filter, [write] inserts every network of the map, in the
    order in which the range loop of line 126 visits the map: the sorted
    code list decides what is retained, not the order. *)
Lemma write_follows_range_order (order_codes order_data : list string)
    (writer : Tree) (dataMap : gmap string (list IPNet)) (output : string)
    (w : World) :
  range_order dataMap order_codes →
  write order_codes order_data writer dataMap output [] w =
    (writer ← foldM (λ writer call, check (Insert writer call.1 call.2))
                    writer (insertions (range_map order_data dataMap));
     outputFile ← os_Create output;
     file_Write outputFile (WriteTo writer).1;;
     match (WriteTo writer).2 with
     | Some err => fail err
     | None => mret writer
     end) w.
Proof.
  intros Hcodes. unfold write. simpl length. simpl Nat.eqb. cbv iota.
  unfold mbind at 1 4, IO_bind at 1 4.
  rewrite insert_loop_flat.
  replace (retained _ (range_map order_data dataMap))
    with (range_map order_data dataMap); [done|].
  unfold retained. symmetry. apply filter_all, Forall_forall.
  intros [code data] Hin. simpl. apply codeMap_index. right.
  unfold sort_Strings. rewrite merge_sort_Permutation, foldl_keys. simpl.
  apply range_map_lookup in Hin. by apply (range_order_covers _ _ _ data).
Qed.
End encoder_facts.

Lemma range_order_disjoint_cn_us : range_order disjoint_map ["cn"; "us"].
Proof. unfold range_order. vm_compute (map_to_list disjoint_map).*1. reflexivity. Qed.

Lemma range_order_disjoint_us_cn : range_order disjoint_map ["us"; "cn"].
Proof. unfold range_order. vm_compute (map_to_list disjoint_map).*1. apply perm_swap. Qed.

Lemma range_order_overlapping_cn_us : range_order overlapping_map ["cn"; "us"].
Proof. unfold range_order. vm_compute (map_to_list overlapping_map).*1. reflexivity. Qed.

Lemma range_order_overlapping_us_cn : range_order overlapping_map ["us"; "cn"].
Proof. unfold range_order. vm_compute (map_to_list overlapping_map).*1. apply perm_swap. Qed.

(** C1, the code at a failing input.  The map has one network for [cn] and
    one for [us], and no code filter is given.  When the range loop of line
    126 visits [us] first, which it may, [write] inserts the network of
    [us] before the network of [cn]: the writer records the calls in that
    order, although [cn] is the smaller code. *)
Theorem write_inserts_in_range_order :
  range_order disjoint_map ["us"; "cn"]
  ∧ sort_Strings ["us"; "cn"] = ["cn"; "us"]
  ∧ (@write plain_os recorder ["us"; "cn"] ["us"; "cn"] []
       disjoint_map "geoip.db" [] world0).1
    = inr [(net_1_2_3_0, "us"); (net_1_1_1_0, "cn")].
Proof.
  split; [exact range_order_disjoint_us_cn|].
  split; vm_compute; reflexivity.
Qed.

(** C2, the code at a failing input.  The network of [us] lies inside the
    network of [cn].  Two runs of [write] on the same map, trie and (empty)
    code filter, which differ only in the order the range loop of line 126
    visits the map, write different bytes to the output file: in one trie
    [1.2.3.0/24] belongs to [us], in the other to [cn]. *)
Theorem write_output_depends_on_range_order :
  let run order_data :=
    @write plain_os replace_trie ["cn"; "us"] order_data empty_trie
      overlapping_map "geoip.db" [] world0 in
  range_order overlapping_map ["cn"; "us"]
  ∧ range_order overlapping_map ["us"; "cn"]
  ∧ owner_1_2_3 (run ["cn"; "us"]) = Some "us"
  ∧ owner_1_2_3 (run ["us"; "cn"]) = Some "cn"
  ∧ files (run ["cn"; "us"]).2 !! "geoip.db"
    ≠ files (run ["us"; "cn"]).2 !! "geoip.db".
Proof.
  intros run.
  split; [exact range_order_overlapping_cn_us|].
  split; [exact range_order_overlapping_us_cn|].
  split; [|split].
  - vm_compute. reflexivity.
  - vm_compute. reflexivity.
  - vm_compute. intros H. discriminate H.
Qed.

(** With the recording writer, the trace of a run without code filter is
    the list of all networks in range order. *)
Lemma recorder_trace (order_codes order_data : list string)
    (dataMap : gmap string (list IPNet)) (output : string) (w : World) :
  range_order dataMap order_codes →
  (@write plain_os recorder order_codes order_data [] dataMap output [] w).1
  = inr (insertions (range_map order_data dataMap)).
Proof.
  intros Hcodes. rewrite (write_follows_range_order _ _ _ _ _ _ Hcodes).
  assert (Hloop : ∀ (calls : list (IPNet * string)) (tree : list (IPNet * string)),
            foldM (λ writer call, check (@Insert recorder writer call.1 call.2))
                  tree calls w = (inr (tree ++ calls), w)).
  { induction calls as [|[item code] calls IH]; intros tree.
    - simpl. by rewrite app_nil_r.
    - rewrite foldM_cons. simpl. unfold check. rewrite IH.
      by rewrite <- app_assoc. }
  unfold mbind, IO_bind. by rewrite Hloop.
Qed.

(** ** A whole run *)

(** The run of the spec's scenario: the upstream database has [1.2.3.0/24]
    for [US] and [9.9.9.0/24] for [CN]; the two sources give the networks of
    [cn].  The run succeeds, the decoded range of [cn] is gone from the
    artifacts, and the tag is set. *)
Example main_scenario :
  let run :=
    @main ipv4_net (served release_pages) plain_os
      (single_db "img" two_country_db) replace_trie
      (hosted {[ "Dreamacro/maxmind-geoip" := upstream ]}) plain_srs
      orders_us_cn world0 in
  run.1 = inr tt
  ∧ files run.2 !! "/rule-set/geoip-us.list" = Some ("IP-CIDR,1.2.3.0/24" +:+ LF)
  ∧ files run.2 !! "/rule-set/geoip-cn.txt"
    = Some ("1.1.1.0/24" +:+ LF +:+ "2.2.2.0/23" +:+ LF +:+ "1.1.1.0/24" +:+ LF)
  ∧ stdout run.2 = "::set-output name=tag::20240101" +:+ LF.
Proof. intros run. repeat split; vm_compute; reflexivity. Qed.

(** * Further properties *)

(** ** The encoder *)

Section encoder_more.
Context `{!OSPkg, !MMDBWriter}.

Lemma foldM_insert_all (calls : list (IPNet * string)) :
  ∀ (writer : Tree) (w : World),
  foldM (λ writer call, check (Insert writer call.1 call.2)) writer calls w
  = (insert_all writer calls, w).
Proof.
  induction calls as [|call calls IH]; intros writer w; [done|].
  rewrite foldM_cons. unfold check at 1. simpl.
  destruct (Insert writer call.1 call.2) as [err|writer']; [done | apply IH].
Qed.

(** [write] in one piece: the insertions of the retained entries, then the
    file. *)
Lemma write_outcome (order_codes order_data : list string) (writer : Tree)
    (dataMap : gmap string (list IPNet)) (output : string)
    (codes : list string) (w : World) :
  write order_codes order_data writer dataMap output codes w =
    match insert_all writer
            (insertions
               (retained
                  (foldl (λ codeMap code, map_store codeMap code true) ∅
                     (sort_Strings
                        (if (length codes =? 0)%nat
                         then (range_map order_codes dataMap).*1
                         else codes)))
                  (range_map order_data dataMap))) with
    | inl err => (inl err, w)
    | inr tree => write_file output tree w
    end.
Proof.
  unfold write. rewrite foldl_keys, app_nil_l.
  unfold mbind at 1, IO_bind at 1.
  rewrite insert_loop_flat, foldM_insert_all.
  destruct (insert_all _ _) as [err|tree]; [done|].
  unfold mbind, IO_bind, os_Create, write_file.
  destruct (create_error (files w) output) as [err|]; [done|].
  unfold file_Write, map_index. simpl.
  rewrite lookup_insert_eq, insert_insert_eq. simpl.
  by destruct (WriteTo tree).2.
Qed.

Lemma retained_listed (codes : list string)
    (entries : list (string * list IPNet)) :
  retained (foldl (λ codeMap code, map_store codeMap code true) ∅
              (sort_Strings codes)) entries
  = filter (λ entry, entry.1 ∈ codes) entries.
Proof.
  unfold retained. apply list_filter_iff. intros entry.
  rewrite codeMap_index. unfold map_index at 1. rewrite lookup_empty. simpl.
  unfold sort_Strings. rewrite merge_sort_Permutation.
  split; [by intros [?|?] | by right].
Qed.

(** X1.  With a code filter that is not empty, [write] inserts the networks
    of the listed codes and no other, in the order in which the range loop
    visits the map; the first insertion that fails ends the call before the
    output file is created. *)
Theorem write_with_filter (order_codes order_data : list string)
    (writer : Tree) (dataMap : gmap string (list IPNet)) (output : string)
    (codes : list string) (w : World) :
  codes ≠ [] →
  write order_codes order_data writer dataMap output codes w =
    match insert_all writer
            (insertions (filter (λ entry, entry.1 ∈ codes)
                                (range_map order_data dataMap))) with
    | inl err => (inl err, w)
    | inr tree => write_file output tree w
    end.
Proof.
  intros Hcodes. rewrite write_outcome.
  destruct codes as [|code codes]; [done|]. simpl length. simpl Nat.eqb.
  cbv iota. by rewrite retained_listed.
Qed.

(** X2.  Without a code filter, [write] inserts every network of the map,
    each tagged with the key it is filed under, in the order in which the
    range loop of line 126 visits the map. *)
Theorem write_without_filter (order_codes order_data : list string)
    (writer : Tree) (dataMap : gmap string (list IPNet)) (output : string)
    (w : World) :
  range_order dataMap order_codes →
  write order_codes order_data writer dataMap output [] w =
    match insert_all writer (insertions (range_map order_data dataMap)) with
    | inl err => (inl err, w)
    | inr tree => write_file output tree w
    end.
Proof.
  intros Hcodes. rewrite write_outcome. simpl length. simpl Nat.eqb. cbv iota.
  rewrite retained_listed.
  rewrite filter_all; [done|]. apply Forall_forall. intros [code data] Hin.
  simpl. apply range_map_lookup in Hin.
  by apply (range_order_covers _ _ _ data).
Qed.

(** X3.  A call of [write] that fails leaves the world as it was, unless
    the failure is the one of [WriteTo]: then the output file exists and
    holds the bytes [WriteTo] wrote before it failed. *)
Theorem write_failure_world (order_codes order_data : list string)
    (writer : Tree) (dataMap : gmap string (list IPNet)) (output : string)
    (codes : list string) (w w' : World) (err : error) :
  write order_codes order_data writer dataMap output codes w = (inl err, w') →
  w' = w
  ∨ ∃ tree, (WriteTo tree).2 = Some err
            ∧ w' = mkWorld (<[output := (WriteTo tree).1]> (files w))
                           (logged w) (stdout w).
Proof.
  rewrite write_outcome. destruct (insert_all _ _) as [e|tree].
  - intros [= _ <-]. by left.
  - unfold write_file. destruct (create_error (files w) output) as [e|].
    + intros [= _ <-]. by left.
    + destruct (WriteTo tree).2 as [e|] eqn:Hw; [|done].
      intros [= <- <-]. right. by exists tree.
Qed.

(** X4.  A call of [write] that succeeds returns the tree it serialised:
    the output file holds exactly the bytes of that tree, whatever it held
    before; every other file, the log and the standard output are as they
    were. *)
Theorem write_success_world (order_codes order_data : list string)
    (writer tree : Tree) (dataMap : gmap string (list IPNet))
    (output : string) (codes : list string) (w w' : World) :
  write order_codes order_data writer dataMap output codes w = (inr tree, w') →
  files w' !! output = Some (WriteTo tree).1
  ∧ (WriteTo tree).2 = None
  ∧ (∀ path, path ≠ output → files w' !! path = files w !! path)
  ∧ logged w' = logged w
  ∧ stdout w' = stdout w.
Proof.
  rewrite write_outcome. destruct (insert_all _ _) as [e|tree0]; [done|].
  unfold write_file. destruct (create_error (files w) output) as [e|]; [done|].
  destruct (WriteTo tree0).2 as [e|] eqn:Hw; [done|].
  intros [= <- <-]. simpl. rewrite lookup_insert_eq.
  repeat split; [done|]. intros path Hne. by rewrite lookup_insert_ne.
Qed.

(** X5.  The code filter is used as a set: two filters that are not empty
    and list the same codes, in any order and any number of times, make
    [write] do the same. *)
Theorem write_filter_is_a_set (order_codes order_codes' order_data : list string)
    (writer : Tree) (dataMap : gmap string (list IPNet)) (output : string)
    (codes codes' : list string) (w : World) :
  codes ≠ [] →
  codes' ≠ [] →
  (∀ code, code ∈ codes ↔ code ∈ codes') →
  write order_codes order_data writer dataMap output codes w
  = write order_codes' order_data writer dataMap output codes' w.
Proof.
  intros H1 H2 Hsame. rewrite !write_outcome.
  destruct codes as [|c codes]; [done|].
  destruct codes' as [|c' codes']; [done|].
  simpl length. simpl Nat.eqb. cbv iota. rewrite !retained_listed.
  by rewrite (list_filter_iff _ (λ entry, entry.1 ∈ c' :: codes')).
Qed.
End encoder_more.

(** The filter [cn] on a map with [cn] and [us]: one insertion. *)
Lemma write_with_filter_witness :
  ["cn"] ≠ []
  ∧ (@write plain_os recorder [] ["us"; "cn"] [] disjoint_map
       "geoip-cn.db" ["cn"] world0).1
    = inr [(net_1_1_1_0, "cn")].
Proof.
  assert (Hcodes : ["cn"] ≠ ([] : list string)) by discriminate.
  split; [exact Hcodes|].
  rewrite (@write_with_filter plain_os recorder [] ["us"; "cn"] []
             disjoint_map "geoip-cn.db" ["cn"] world0 Hcodes).
  vm_compute. reflexivity.
Defined.

Lemma write_without_filter_witness :
  range_order disjoint_map ["cn"; "us"]
  ∧ (@write plain_os recorder ["cn"; "us"] ["cn"; "us"] [] disjoint_map
       "geoip.db" [] world0).1
    = inr [(net_1_1_1_0, "cn"); (net_1_2_3_0, "us")].
Proof.
  split; [exact range_order_disjoint_cn_us|].
  rewrite (@write_without_filter plain_os recorder ["cn"; "us"] ["cn"; "us"] []
             disjoint_map "geoip.db" world0 range_order_disjoint_cn_us).
  vm_compute. reflexivity.
Defined.

(** A serialisation that stops after four bytes: the file is left with
    them. *)
Lemma write_failure_world_witness :
  let w' := mkWorld {[ "geoip.db" := "4/24" ]} [] "" in
  @write plain_os short_trie ["cn"; "us"] ["cn"; "us"] empty_trie
    disjoint_map "geoip.db" [] world0 = (inl (Error "short write"), w')
  ∧ (w' = world0
     ∨ ∃ tree : @Tree short_trie,
         (@WriteTo short_trie tree).2 = Some (Error "short write")
         ∧ w' = mkWorld (<["geoip.db" := (@WriteTo short_trie tree).1]> (files world0))
                        (logged world0) (stdout world0)).
Proof.
  intros w'.
  assert (Hrun : @write plain_os short_trie ["cn"; "us"] ["cn"; "us"] empty_trie
            disjoint_map "geoip.db" [] world0 = (inl (Error "short write"), w'))
    by (vm_compute; reflexivity).
  split; [exact Hrun|].
  exact (@write_failure_world plain_os short_trie ["cn"; "us"] ["cn"; "us"]
           empty_trie disjoint_map "geoip.db" [] world0 w'
           (Error "short write") Hrun).
Defined.

Lemma write_success_world_witness :
  ∃ (tree : trie) (w' : World),
    @write plain_os replace_trie ["cn"; "us"] ["cn"; "us"] empty_trie
      disjoint_map "geoip.db" [] world0 = (inr tree, w')
    ∧ files w' !! "geoip.db" = Some (trie_WriteTo tree).1
    ∧ logged w' = [].
Proof.
  destruct (@write plain_os replace_trie ["cn"; "us"] ["cn"; "us"] empty_trie
              disjoint_map "geoip.db" [] world0) as [[err|tree] w'] eqn:Hrun.
  - vm_compute in Hrun. discriminate Hrun.
  - exists tree, w'. split; [reflexivity|].
    destruct (@write_success_world plain_os replace_trie ["cn"; "us"] ["cn"; "us"]
                empty_trie tree disjoint_map "geoip.db" [] world0 w' Hrun)
      as (Hfile & _ & _ & Hlog & _).
    split; [exact Hfile | exact Hlog].
Defined.

Lemma write_filter_is_a_set_witness :
  ["cn"; "us"] ≠ []
  ∧ ["us"; "cn"; "cn"] ≠ []
  ∧ (∀ code, code ∈ ["cn"; "us"] ↔ code ∈ ["us"; "cn"; "cn"])
  ∧ @write plain_os replace_trie [] ["cn"; "us"] empty_trie overlapping_map
      "geoip.db" ["cn"; "us"] world0
    = @write plain_os replace_trie [] ["cn"; "us"] empty_trie overlapping_map
        "geoip.db" ["us"; "cn"; "cn"] world0.
Proof.
  assert (H1 : ["cn"; "us"] ≠ ([] : list string)) by discriminate.
  assert (H2 : ["us"; "cn"; "cn"] ≠ ([] : list string)) by discriminate.
  assert (H3 : ∀ code : string, code ∈ ["cn"; "us"] ↔ code ∈ ["us"; "cn"; "cn"]).
  { intros code. rewrite !elem_of_cons, elem_of_nil. tauto. }
  split; [exact H1 | split; [exact H2 | split; [exact H3|]]].
  exact (@write_filter_is_a_set plain_os replace_trie [] [] ["cn"; "us"]
           empty_trie overlapping_map "geoip.db" ["cn"; "us"] ["us"; "cn"; "cn"]
           world0 H1 H2 H3).
Defined.

Lemma range_map_keys {V} (order : list string) (m : gmap string V)
    (entry : string * V) :
  entry ∈ range_map order m → entry.1 ∈ order.
Proof.
  unfold range_map. rewrite list_elem_of_omap. intros (k & Hk & Hentry).
  destruct (m !! k); simpl in Hentry; [|done]. by inversion Hentry; subst.
Qed.

Lemma range_order_NoDup {V} (order : list string) (m : gmap string V) :
  range_order m order → NoDup order.
Proof.
  unfold range_order. intros ->. apply NoDup_fst_map_to_list.
Qed.

Lemma range_order_elem {V} (order : list string) (m : gmap string V)
    (k : string) (v : V) :
  range_order m order → m !! k = Some v → k ∈ order.
Proof.
  unfold range_order. intros -> Hk. apply list_elem_of_fmap.
  exists (k, v). split; [done|]. by apply elem_of_map_to_list.
Qed.

Lemma filter_none {A} (P : A → Prop) `{!∀ x, Decision (P x)} (l : list A) :
  Forall (λ x, ¬ P x) l → filter P l = [].
Proof.
  induction 1 as [|x l Hx _ IH]; [done|]. by rewrite filter_cons_False.
Qed.

Lemma range_map_cons {V} (k : string) (order : list string) (m : gmap string V) :
  range_map (k :: order) m =
    match m !! k with
    | Some v => (k, v) :: range_map order m
    | None => range_map order m
    end.
Proof. unfold range_map. simpl. by destruct (m !! k). Qed.

(** A range loop meets a key once. *)
Lemma range_map_single {V} (order : list string) (m : gmap string V)
    (k : string) (v : V) :
  NoDup order → k ∈ order → m !! k = Some v →
  filter (λ entry, entry.1 ∈ [k]) (range_map order m) = [(k, v)].
Proof.
  intros Hnd. induction Hnd as [|x order Hx Hnd IH]; intros Hin Hk.
  - by apply elem_of_nil in Hin.
  - rewrite range_map_cons. destruct (decide (x = k)) as [->|Hne].
    + rewrite Hk, filter_cons_True by (simpl; apply list_elem_of_here).
      f_equal. apply filter_none, Forall_forall. intros entry He Hentry.
      apply range_map_keys in He. apply list_elem_of_singleton in Hentry.
      by rewrite Hentry in He.
    + apply elem_of_cons in Hin as [->|Hin]; [done|].
      destruct (m !! x) as [vx|]; [|by apply IH].
      rewrite filter_cons_False; [by apply IH|].
      simpl. by rewrite list_elem_of_singleton.
Qed.

Section encoder_override.
Context `{!OSPkg, !MMDBWriter}.

(** X6.  The single-country trie: on the map whose [cn] entry was replaced,
    [write] with the filter [cn] inserts exactly the replacement networks,
    tagged [cn], in their order - none of the ranges the decoder had for
    [cn], none of another country. *)
Theorem write_cn_after_override (order_codes order_data : list string)
    (writer : Tree) (countryMap : gmap string (list IPNet))
    (chinaCIDRs : list IPNet) (output : string) (w : World) :
  range_order (map_store countryMap "cn" chinaCIDRs) order_data →
  write order_codes order_data writer (map_store countryMap "cn" chinaCIDRs)
        output ["cn"] w =
    match insert_all writer ((λ item, (item, "cn")) <$> chinaCIDRs) with
    | inl err => (inl err, w)
    | inr tree => write_file output tree w
    end.
Proof.
  intros Horder. rewrite write_outcome. simpl length. simpl Nat.eqb. cbv iota.
  rewrite retained_listed.
  assert (Hcn : map_store countryMap "cn" chinaCIDRs !! "cn" = Some chinaCIDRs)
    by apply lookup_insert_eq.
  rewrite (range_map_single _ _ "cn" chinaCIDRs
             (range_order_NoDup _ _ Horder) (range_order_elem _ _ _ _ Horder Hcn) Hcn).
  unfold insertions. simpl. by rewrite app_nil_r.
Qed.
End encoder_override.

Lemma write_cn_after_override_witness :
  range_order (map_store disjoint_map "cn" [net_2_2_2_0; net_1_1_1_0]) ["us"; "cn"]
  ∧ (@write plain_os recorder [] ["us"; "cn"] []
       (map_store disjoint_map "cn" [net_2_2_2_0; net_1_1_1_0])
       "geoip-cn.db" ["cn"] world0).1
    = inr [(net_2_2_2_0, "cn"); (net_1_1_1_0, "cn")].
Proof.
  assert (Horder : range_order (map_store disjoint_map "cn" [net_2_2_2_0; net_1_1_1_0])
                     ["us"; "cn"]).
  { unfold range_order.
    vm_compute (map_to_list (map_store disjoint_map "cn" [net_2_2_2_0; net_1_1_1_0])).*1.
    apply perm_swap. }
  split; [exact Horder|].
  rewrite (@write_cn_after_override plain_os recorder [] ["us"; "cn"] []
             disjoint_map [net_2_2_2_0; net_1_1_1_0] "geoip-cn.db" world0 Horder).
  vm_compute. reflexivity.
Defined.

(** ** The emitters *)

Section emit_more.
Context `{!NetPkg, !HttpPkg, !OSPkg, !MMDBWriter}.

(** [writeCIDRsToFile] in one piece, for every format. *)
Lemma writeCIDRsToFile_effect (cidrs : list IPNet)
    (outputDir countryCode format : string) (w : World) :
  writeCIDRsToFile cidrs outputDir countryCode format w =
    match create_error (files w) (artifact_path outputDir countryCode format) with
    | Some err => (inl err, w)
    | None =>
        (inr tt,
         mkWorld (<[artifact_path outputDir countryCode format
                    := emitted format cidrs]> (files w))
                 (logged w ++ [Info ["write "; artifact_path outputDir countryCode format]])
                 (stdout w))
    end.
Proof.
  unfold artifact_path, writeCIDRsToFile.
  set (filePath := filepath_Abs _).
  destruct (create_error (files w) filePath) as [err|] eqn:Hc.
  { unfold mbind, IO_bind, os_Create. by rewrite Hc. }
  unfold emitted. case_bool_decide as Hfmt.
  - destruct (known_format_cases _ Hfmt) as [-> | [-> | [-> | ->]]];
      cbn [String.eqb Ascii.eqb Bool.eqb];
      unfold bufio_NewWriter;
      [ rewrite (foldl_WriteString _ (λ cidr, spec_line "txt" cidr +:+ LF))
      | rewrite (foldl_WriteString _ (λ cidr, spec_line "list" cidr +:+ LF))
      | rewrite (foldl_WriteString _ (λ cidr, spec_line "yaml" cidr +:+ LF))
      | rewrite (foldl_WriteString _ (λ cidr, spec_line "snippet" cidr +:+ LF)) ];
      try (intros writer cidr; unfold spec_line; cbn [String.eqb Ascii.eqb Bool.eqb];
           by destruct (To4 (IP cidr)));
      by rewrite (create_log_flush _ _ _ _ Hc).
  - unfold formats in Hfmt. rewrite !not_elem_of_cons in Hfmt.
    destruct Hfmt as (Ntxt & Nlist & Nyaml & Nsnippet & _).
    apply String.eqb_neq in Ntxt, Nlist, Nyaml, Nsnippet.
    rewrite Ntxt, Nlist, Nyaml, Nsnippet.
    by rewrite (create_log_flush _ _ _ _ Hc).
Qed.

(** X7.  Whatever the format, [writeCIDRsToFile] fails only when
    [os.Create] fails, with its error and without any effect; it never
    touches a file other than its target and never writes to the standard
    output. *)
Theorem writeCIDRsToFile_touches_one_file (cidrs : list IPNet)
    (outputDir countryCode format : string) (w : World) :
  let run := writeCIDRsToFile cidrs outputDir countryCode format w in
  let target := artifact_path outputDir countryCode format in
  (∀ err, run.1 = inl err ↔ create_error (files w) target = Some err)
  ∧ (∀ err, run.1 = inl err → run.2 = w)
  ∧ (∀ path, path ≠ target → files run.2 !! path = files w !! path)
  ∧ stdout run.2 = stdout w.
Proof.
  intros run target. unfold run. rewrite writeCIDRsToFile_effect. fold target.
  destruct (create_error (files w) target) as [e|]; simpl.
  - repeat split; try done; by intros [= ->].
  - repeat split; try done. intros path Hne. by rewrite lookup_insert_ne.
Qed.
End emit_more.

(** On a full disk the emitter returns the error of [os.Create] and leaves
    the world alone. *)
Lemma writeCIDRsToFile_touches_one_file_witness :
  @create_error full_disk (files world0) "/rule-set/geoip-cn.txt"
  = Some (Error "no space left on device")
  ∧ @writeCIDRsToFile ipv4_net full_disk [net_1_1_1_0] "rule-set" "cn" "txt" world0
    = (inl (Error "no space left on device"), world0).
Proof.
  destruct (@writeCIDRsToFile_touches_one_file ipv4_net full_disk
              [net_1_1_1_0] "rule-set" "cn" "txt" world0) as (Herr & Hsame & _).
  assert (Hc : @create_error full_disk (files world0) "/rule-set/geoip-cn.txt"
               = Some (Error "no space left on device")) by reflexivity.
  split; [exact Hc|].
  pose proof (proj2 (Herr _) Hc) as Hrun. pose proof (Hsame _ Hrun) as Hw.
  destruct (@writeCIDRsToFile ipv4_net full_disk [net_1_1_1_0] "rule-set" "cn"
              "txt" world0) as [r w']. simpl in Hrun, Hw. by rewrite Hrun, Hw.
Defined.

(** ** The source reader *)

Section reader_more.
Context `{!NetPkg, !HttpPkg}.

Lemma fetch_url_failure (allCIDRs : list IPNet) (url : string) (w : World)
    (err : error) :
  source_error url = Some err →
  fetch_url allCIDRs url w = (inl err, logging w (source_warnings url)).
Proof.
  unfold source_error, fetch_url, source_warnings, source_lines.
  destruct (http_Get url) as [e|resp]; unfold mbind, IO_bind, check.
  - intros [= ->]. simpl. by rewrite logging_nil.
  - intros Herr. by rewrite scan_lines_effect, Herr.
Qed.

Lemma network_or_warning (lines : list string) :
  length (omap line_network lines) + length (omap line_warning lines)
  = length lines.
Proof.
  induction lines as [|line lines IH]; [done|].
  rewrite !omap_cons_list, !length_app.
  unfold line_network at 1, line_warning at 1.
  destruct (ParseCIDR line); simpl in *; lia.
Qed.

(** X8.  A source that cannot be retrieved, or whose scan stops with an
    error, ends the read with that error: the networks read so far are not
    returned and the sources after it are not read; the warnings logged up
    to then stay in the log. *)
Theorem failing_source_aborts_read (good rest : list string) (bad : string)
    (w : World) (err : error) :
  Forall source_ok good →
  source_error bad = Some err →
  fetch_sources (good ++ bad :: rest) w =
    (inl err,
     logging w (concat (source_warnings <$> good) ++ source_warnings bad)).
Proof.
  intros Hgood Hbad. unfold fetch_sources.
  rewrite foldM_app, (fetch_sources_effect _ Hgood), foldM_cons.
  by rewrite (fetch_url_failure _ _ _ _ Hbad), logging_app.
Qed.

(** X9.  When every source can be read, each line that is neither blank nor
    a comment gives either one network or one warning: the networks returned
    and the warnings logged are together as many as those lines; files and
    standard output are not touched. *)
Theorem every_line_is_network_or_warning (sources : list string) (w : World) :
  Forall source_ok sources →
  ∃ (nets : list IPNet) (warnings : list LogEntry),
    fetch_sources sources w = (inr nets, logging w warnings)
    ∧ length nets + length warnings = length (sources ≫= source_lines)
    ∧ Forall (λ entry, ∃ line, entry = Warn ["Invalid CIDR:"; line]) warnings.
Proof.
  intros Hok. eexists _, _. split; [|split].
  - unfold fetch_sources. by rewrite (fetch_sources_effect _ Hok).
  - rewrite networks_of_lines, warnings_of_lines. apply network_or_warning.
  - rewrite warnings_of_lines. apply Forall_forall. intros entry.
    rewrite list_elem_of_omap. intros (line & _ & Hline).
    unfold line_warning in Hline. destruct (ParseCIDR line); [|done].
    exists line. by inversion Hline.
Qed.
End reader_more.

Lemma failing_source_aborts_read_witness :
  Forall (@source_ok (served first_page_only))
    ["https://raw.githubusercontent.com/misakaio/chnroutes2/master/chnroutes.txt"]
  ∧ (∃ err, @source_error (served first_page_only)
              "https://raw.githubusercontent.com/gaoyifan/china-operator-ip/ip-lists/china6.txt"
            = Some err
            ∧ @fetchChinaIPCIDR ipv4_net (served first_page_only) world0
              = (inl err, logging world0 [Warn ["Invalid CIDR:"; "bogus"]])).
Proof.
  assert (Hgood : Forall (@source_ok (served first_page_only))
    ["https://raw.githubusercontent.com/misakaio/chnroutes2/master/chnroutes.txt"]).
  { apply Forall_cons_2; [|apply Forall_nil_2].
    eexists; split; [vm_compute; reflexivity | reflexivity]. }
  split; [exact Hgood|]. eexists. 
  assert (Hbad : @source_error (served first_page_only)
            "https://raw.githubusercontent.com/gaoyifan/china-operator-ip/ip-lists/china6.txt"
          = Some (Error "Get https://raw.githubusercontent.com/gaoyifan/china-operator-ip/ip-lists/china6.txt"))
    by (vm_compute; reflexivity).
  split; [exact Hbad|].
  refine (eq_trans
    (@failing_source_aborts_read ipv4_net (served first_page_only)
       ["https://raw.githubusercontent.com/misakaio/chnroutes2/master/chnroutes.txt"]
       [] _ world0 _ Hgood Hbad) _).
  vm_compute. reflexivity.
Defined.

Lemma every_line_is_network_or_warning_witness :
  Forall (@source_ok (served china_pages)) urls
  ∧ ∃ (nets : list IPNet) (warnings : list LogEntry),
      @fetch_sources ipv4_net (served china_pages) urls world0
      = (inr nets, logging world0 warnings)
      ∧ length nets + length warnings = 4.
Proof.
  split; [exact china_pages_ok|].
  destruct (@every_line_is_network_or_warning ipv4_net (served china_pages)
              urls world0 china_pages_ok) as (nets & warnings & Hrun & Hlen & _).
  exists nets, warnings. split; [exact Hrun | exact Hlen].
Defined.

(** ** The decoder *)

Lemma sum_list_Permutation (l k : list nat) : l ≡ₚ k → sum_list l = sum_list k.
Proof. induction 1; simpl; lia. Qed.

Lemma group_sizes_file_under (countryMap : gmap string (list IPNet))
    (entry : string * IPNet) :
  group_sizes (file_under countryMap entry) = S (group_sizes countryMap).
Proof.
  unfold group_sizes, file_under, map_store, map_index.
  destruct (countryMap !! entry.1) as [ranges|] eqn:Hl; simpl.
  - rewrite <- (insert_delete_eq countryMap).
    rewrite (sum_list_Permutation _ _
               (fmap_Permutation _ _ _
                  (fmap_Permutation _ _ _
                     (map_to_list_insert _ _ _ (lookup_delete_eq countryMap entry.1))))).
    rewrite <- (sum_list_Permutation _ _
               (fmap_Permutation length _ _
                  (fmap_Permutation snd _ _
                     (map_to_list_delete _ _ _ Hl)))).
    simpl. rewrite length_app. simpl. lia.
  - by rewrite (sum_list_Permutation _ _
               (fmap_Permutation _ _ _
                  (fmap_Permutation _ _ _
                     (map_to_list_insert _ _ (entry.2 :: nil) Hl)))).
Qed.

Lemma group_sizes_filed (pairs : list (string * IPNet)) :
  ∀ countryMap : gmap string (list IPNet),
  group_sizes (foldl file_under countryMap pairs)
  = group_sizes countryMap + length pairs.
Proof.
  induction pairs as [|entry pairs IH]; intros m; simpl; [lia|].
  rewrite IH, group_sizes_file_under. lia.
Qed.

Lemma networks_of_present (code : string) (pairs : list (string * IPNet)) :
  code ∈ pairs.*1 → networks_of code pairs ≠ [].
Proof.
  induction pairs as [|entry pairs IH]; [by rewrite elem_of_nil|].
  rewrite fmap_cons, elem_of_cons, networks_of_cons. intros [->|Hin].
  - by rewrite decide_True.
  - destruct (decide (entry.1 = code)); [done | by apply IH].
Qed.

Section decoder_more.
Context `{!MaxMindDB}.

(** X10.  [parse] files every leaf it walks exactly once: the ranges of all
    countries together are never more than the leaves of the database, and
    exactly as many when [parse] returns no error. *)
Theorem parse_files_each_leaf_once (binary : string) (db : Reader) :
  FromBytes binary = inr db →
  (group_sizes (parse binary).1.2 ≤ length (reader_leaves db))%nat
  ∧ ((parse binary).2 = None →
     group_sizes (parse binary).1.2 = length (reader_leaves db)).
Proof.
  intros Hdb. unfold parse. rewrite Hdb, parse_walk_decoded. simpl.
  rewrite group_sizes_filed.
  destruct (decoded_prefix (reader_leaves db) (mkEnterprise "")) as (k & Hk & Hend).
  assert (Hlen : length (decoded (reader_leaves db) (mkEnterprise "")).1
                 = length (take k (reader_leaves db))).
  { by rewrite <- (length_fmap snd), Hk, length_fmap. }
  rewrite Hlen, length_take. unfold group_sizes at 1 2.
  rewrite map_to_list_empty. simpl. split; [lia|].
  destruct (decoded (reader_leaves db) (mkEnterprise "")).2; [done|]. lia.
Qed.

(** X11.  No key of the map [parse] returns has an empty range list: a key
    is there because a leaf was filed under it. *)
Theorem parse_groups_not_empty (binary code : string) (ranges : list IPNet) :
  (parse binary).1.2 !! code = Some ranges → ranges ≠ [].
Proof.
  unfold parse. destruct (FromBytes binary) as [err|db]; [done|].
  rewrite parse_walk_decoded. simpl. intros Hcode.
  pose proof (filed_networks (decoded (reader_leaves db) (mkEnterprise "")).1
                ∅ code) as Hnets.
  unfold map_index in Hnets. rewrite Hcode, lookup_empty in Hnets.
  simpl in Hnets. rewrite Hnets. apply networks_of_present.
  assert (Hsome : is_Some (foldl file_under ∅
            (decoded (reader_leaves db) (mkEnterprise "")).1 !! code))
    by (by exists ranges).
  apply filed_keys in Hsome as [[? Habs]|?]; [|done].
  by rewrite lookup_empty in Habs.
Qed.
End decoder_more.

Lemma parse_files_each_leaf_once_witness :
  @FromBytes (single_db "img" two_country_db) "img" = inr two_country_db
  ∧ (@parse (single_db "img" two_country_db) "img").2 = None
  ∧ group_sizes (@parse (single_db "img" two_country_db) "img").1.2 = 2.
Proof.
  assert (Hdb : @FromBytes (single_db "img" two_country_db) "img" = inr two_country_db)
    by reflexivity.
  assert (Hok : (@parse (single_db "img" two_country_db) "img").2 = None)
    by (vm_compute; reflexivity).
  split; [exact Hdb | split; [exact Hok|]].
  exact (proj2 (@parse_files_each_leaf_once (single_db "img" two_country_db)
                  "img" two_country_db Hdb) Hok).
Defined.

Lemma parse_groups_not_empty_witness :
  (@parse (single_db "img" broken_db) "img").1.2 !! "us" = Some [net_1_2_3_0]
  ∧ [net_1_2_3_0] ≠ [].
Proof.
  assert (Hus : (@parse (single_db "img" broken_db) "img").1.2 !! "us"
                = Some [net_1_2_3_0]) by (vm_compute; reflexivity).
  split; [exact Hus|].
  exact (@parse_groups_not_empty (single_db "img" broken_db) "img" "us"
           [net_1_2_3_0] Hus).
Defined.

(** ** Releases *)

Lemma SplitN2_first_slash (owner repo : string) :
  "/"%char ∉ chars owner →
  SplitN2 (owner +:+ "/" +:+ repo) "/" = [owner; repo].
Proof.
  induction owner as [|c owner IH]; intros Hslash; [done|].
  simpl in Hslash. apply not_elem_of_cons in Hslash as [Hc Howner].
  rewrite append_cons. simpl.
  destruct (Ascii.eqb_spec c "/") as [-> | _]; [done|].
  by rewrite (IH Howner).
Qed.

Section release_more.
Context `{!NetPkg, !HttpPkg, !OSPkg, !MaxMindDB, !MMDBWriter, !GitHubPkg, !SRSPkg}.

Lemma fetch_pure (from : string) (w : World) :
  fetch from w = ((fetch from w).1, w).
Proof. unfold fetch. by destruct (negb _). Qed.

(** X12.  [fetch] splits the name at its first slash into owner and
    repository - the repository may contain further slashes -, asks for the
    release tagged [FIXED_RELEASE] when that variable is set and for the
    latest release otherwise, and has no effect of its own. *)
Theorem fetch_splits_at_first_slash (owner repo : string) (w : World) :
  "/"%char ∉ chars owner →
  fetch (owner +:+ "/" +:+ repo) w = (requested owner repo, w).
Proof.
  intros Hslash. unfold fetch, requested.
  rewrite (SplitN2_first_slash _ _ Hslash). simpl.
  by destruct (String.eqb (os_Getenv "FIXED_RELEASE") "").
Qed.

(** [release] once both releases were asked for. *)
Lemma release_after_fetch (orders : Orders)
    (source destination output ruleSetOutput : string) (w : World)
    (sourceRelease : RepositoryRelease)
    (destinationRelease : error + RepositoryRelease) :
  (fetch source w).1 = inr sourceRelease →
  (fetch destination w).1 = destinationRelease →
  release orders source destination output ruleSetOutput w =
    match destinationRelease with
    | inl _ =>
        release_pipeline orders sourceRelease output ruleSetOutput
          (logging w [Warn ["missing destination latest release"]])
    | inr destinationRelease =>
        if negb (String.eqb (os_Getenv "NO_SKIP") "true")
           && Contains (release_Name destinationRelease) (release_Name sourceRelease)
        then (inr tt,
              mkWorld (files w) (logged w ++ [Info ["already latest"]])
                      (stdout w +:+ "::set-output name=skip::true" +:+ LF))
        else release_pipeline orders sourceRelease output ruleSetOutput w
    end.
Proof.
  intros Hs Hd. unfold release.
  unfold mbind at 1, IO_bind at 1. rewrite (fetch_pure source w), Hs.
  unfold mbind at 1, IO_bind at 1, attempt.
  rewrite (fetch_pure destination w), Hd.
  destruct destinationRelease as [err|dr].
  - reflexivity.
  - unfold mbind at 1, IO_bind at 1. unfold mret at 1, IO_ret at 1.
    destruct (negb _ && _); [|reflexivity].
    reflexivity.
Qed.

(** X13.  When the destination already has a release whose name contains
    the name of the source release, and [NO_SKIP] is not [true], [release]
    downloads and writes nothing: it logs [already latest], sets the action
    output [skip] to [true] and returns nil. *)
Theorem release_skips_when_latest (orders : Orders)
    (source destination output ruleSetOutput : string) (w : World)
    (sourceRelease destinationRelease : RepositoryRelease) :
  (fetch source w).1 = inr sourceRelease →
  (fetch destination w).1 = inr destinationRelease →
  os_Getenv "NO_SKIP" ≠ "true" →
  Contains (release_Name destinationRelease) (release_Name sourceRelease) = true →
  release orders source destination output ruleSetOutput w =
    (inr tt,
     mkWorld (files w) (logged w ++ [Info ["already latest"]])
             (stdout w +:+ "::set-output name=skip::true" +:+ LF)).
Proof.
  intros Hs Hd Henv Hin.
  rewrite (release_after_fetch _ _ _ _ _ _ _ _ Hs Hd), Hin.
  apply String.eqb_neq in Henv. by rewrite Henv.
Qed.

(** X14.  A destination whose release cannot be fetched is no error:
    [release] logs a warning and builds. *)
Theorem release_builds_without_destination (orders : Orders)
    (source destination output ruleSetOutput : string) (w : World)
    (sourceRelease : RepositoryRelease) (err : error) :
  (fetch source w).1 = inr sourceRelease →
  (fetch destination w).1 = inl err →
  release orders source destination output ruleSetOutput w =
    release_pipeline orders sourceRelease output ruleSetOutput
      (logging w [Warn ["missing destination latest release"]]).
Proof.
  intros Hs Hd. by rewrite (release_after_fetch _ _ _ _ _ _ _ _ Hs Hd).
Qed.

(** X15.  With [NO_SKIP] set to [true], [release] builds even when the
    destination already has the release of the source; so it does when the
    name of the destination release does not contain the name of the source
    release. *)
Theorem release_builds_when_asked (orders : Orders)
    (source destination output ruleSetOutput : string) (w : World)
    (sourceRelease destinationRelease : RepositoryRelease) :
  (fetch source w).1 = inr sourceRelease →
  (fetch destination w).1 = inr destinationRelease →
  os_Getenv "NO_SKIP" = "true"
  ∨ Contains (release_Name destinationRelease) (release_Name sourceRelease) = false →
  release orders source destination output ruleSetOutput w =
    release_pipeline orders sourceRelease output ruleSetOutput w.
Proof.
  intros Hs Hd Hbuild.
  rewrite (release_after_fetch _ _ _ _ _ _ _ _ Hs Hd).
  destruct Hbuild as [-> | ->]; [done|]. by rewrite andb_false_r.
Qed.
End release_more.

Lemma fetch_splits_at_first_slash_witness :
  ("/"%char ∉ chars "Dreamacro")
  ∧ @fetch plain_os upstream_hosted "Dreamacro/maxmind-geoip" world0
    = (inr upstream, world0).
Proof.
  assert (Hslash : "/"%char ∉ chars "Dreamacro")
    by (apply (bool_decide_unpack _); vm_compute; exact I).
  split; [exact Hslash|].
  refine (eq_trans (@fetch_splits_at_first_slash plain_os upstream_hosted
                      "Dreamacro" "maxmind-geoip" world0 Hslash) _).
  vm_compute. reflexivity.
Defined.

(** The destination has published [Released on 20240101]; the source
    release is [20240101]. *)
Lemma release_skips_when_latest_witness :
  (@fetch plain_os both_hosted "Dreamacro/maxmind-geoip" world0).1 = inr upstream
  ∧ (@fetch plain_os both_hosted "caocaocc/geoip" world0).1 = inr published
  ∧ @os_Getenv plain_os "NO_SKIP" ≠ "true"
  ∧ Contains (release_Name published) (release_Name upstream) = true
  ∧ @main ipv4_net (served release_pages) plain_os
      (single_db "img" two_country_db) replace_trie both_hosted plain_srs
      orders_us_cn world0
    = (inr tt,
       mkWorld ∅ [Info ["already latest"]]
               ("::set-output name=skip::true" +:+ LF)).
Proof.
  assert (Hs : (@fetch plain_os both_hosted "Dreamacro/maxmind-geoip" world0).1
               = inr upstream) by (vm_compute; reflexivity).
  assert (Hd : (@fetch plain_os both_hosted "caocaocc/geoip" world0).1
               = inr published) by (vm_compute; reflexivity).
  assert (Henv : @os_Getenv plain_os "NO_SKIP" ≠ "true") by discriminate.
  assert (Hin : Contains (release_Name published) (release_Name upstream) = true)
    by (vm_compute; reflexivity).
  split; [exact Hs | split; [exact Hd | split; [exact Henv | split; [exact Hin|]]]].
  exact (@release_skips_when_latest ipv4_net (served release_pages) plain_os
           (single_db "img" two_country_db) replace_trie both_hosted plain_srs
           orders_us_cn "Dreamacro/maxmind-geoip" "caocaocc/geoip" "geoip.db"
           "rule-set" world0 upstream published Hs Hd Henv Hin).
Defined.

Lemma release_builds_without_destination_witness :
  (@fetch plain_os upstream_hosted "Dreamacro/maxmind-geoip" world0).1 = inr upstream
  ∧ (@fetch plain_os upstream_hosted "caocaocc/geoip" world0).1
    = inl (Error "404 Not Found")
  ∧ @main ipv4_net (served release_pages) plain_os
      (single_db "img" two_country_db) replace_trie upstream_hosted plain_srs
      orders_us_cn world0
    = @release_pipeline ipv4_net (served release_pages) plain_os
        (single_db "img" two_country_db) replace_trie plain_srs
        orders_us_cn upstream "geoip.db" "rule-set"
        (logging world0 [Warn ["missing destination latest release"]]).
Proof.
  assert (Hs : (@fetch plain_os upstream_hosted "Dreamacro/maxmind-geoip" world0).1
               = inr upstream) by (vm_compute; reflexivity).
  assert (Hd : (@fetch plain_os upstream_hosted "caocaocc/geoip" world0).1
               = inl (Error "404 Not Found")) by (vm_compute; reflexivity).
  split; [exact Hs | split; [exact Hd|]].
  exact (@release_builds_without_destination ipv4_net (served release_pages)
           plain_os (single_db "img" two_country_db) replace_trie upstream_hosted
           plain_srs orders_us_cn "Dreamacro/maxmind-geoip" "caocaocc/geoip"
           "geoip.db" "rule-set" world0 upstream _ Hs Hd).
Defined.

Lemma release_builds_when_asked_witness :
  (@fetch no_skip_os both_hosted "Dreamacro/maxmind-geoip" world0).1 = inr upstream
  ∧ (@fetch no_skip_os both_hosted "caocaocc/geoip" world0).1 = inr published
  ∧ @os_Getenv no_skip_os "NO_SKIP" = "true"
  ∧ @main ipv4_net (served release_pages) no_skip_os
      (single_db "img" two_country_db) replace_trie both_hosted plain_srs
      orders_us_cn world0
    = @release_pipeline ipv4_net (served release_pages) no_skip_os
        (single_db "img" two_country_db) replace_trie plain_srs
        orders_us_cn upstream "geoip.db" "rule-set" world0.
Proof.
  assert (Hs : (@fetch no_skip_os both_hosted "Dreamacro/maxmind-geoip" world0).1
               = inr upstream) by (vm_compute; reflexivity).
  assert (Hd : (@fetch no_skip_os both_hosted "caocaocc/geoip" world0).1
               = inr published) by (vm_compute; reflexivity).
  assert (Henv : @os_Getenv no_skip_os "NO_SKIP" = "true") by reflexivity.
  split; [exact Hs | split; [exact Hd | split; [exact Henv|]]].
  exact (@release_builds_when_asked ipv4_net (served release_pages)
           no_skip_os (single_db "img" two_country_db) replace_trie both_hosted
           plain_srs orders_us_cn "Dreamacro/maxmind-geoip" "caocaocc/geoip"
           "geoip.db" "rule-set" world0 upstream published Hs Hd (or_introl Henv)).
Defined.


Lemma find_first {A} (f : A → bool) (before after : list A) (x : A) :
  Forall (λ y, f y = false) before → f x = true →
  List.find f (before ++ x :: after) = Some x.
Proof.
  induction 1 as [|y before Hy _ IH]; intros Hx; simpl.
  - by rewrite Hx.
  - rewrite Hy. by apply IH.
Qed.

Lemma foldl_snoc_fmap {A B} (f : A → B) (l : list A) :
  ∀ acc : list B, foldl (λ acc x, acc ++ [f x]) acc l = acc ++ (f <$> l).
Proof.
  induction l as [|x l IH]; intros acc; simpl.
  - by rewrite app_nil_r.
  - by rewrite IH, <- app_assoc.
Qed.

Section release_steps.
Context `{!NetPkg, !HttpPkg, !OSPkg, !MaxMindDB, !MMDBWriter, !GitHubPkg, !SRSPkg}.


(** X17.  [download] takes the first asset named [Country.mmdb], whatever
    follows it: it logs the URL, then returns the body of the response read
    whole, or the error of the request or of the reading. *)
Theorem download_first_asset (release : RepositoryRelease)
    (before after : list ReleaseAsset) (asset : ReleaseAsset) (w : World) :
  Assets release = before ++ asset :: after →
  Forall (λ other, asset_Name other ≠ "Country.mmdb") before →
  asset_Name asset = "Country.mmdb" →
  download release w =
    (match http_Get (BrowserDownloadURL asset) with
     | inl err => inl err
     | inr body => io_ReadAll body
     end,
     logging w [Info ["download "; BrowserDownloadURL asset]]).
Proof.
  intros Hassets Hbefore Hname. unfold download. rewrite Hassets.
  rewrite (find_first _ before after asset).
  - unfold get, mbind, IO_bind, log_Info, check, logging.
    by destruct (http_Get (BrowserDownloadURL asset)).
  - eapply Forall_impl; [exact Hbefore|]. intros other Hne.
    by apply String.eqb_neq.
  - by apply String.eqb_eq.
Qed.

(** X18.  For one country, on a system where files can be created and with
    a rule set that serialises, the loop body of [release] writes five
    files and nothing else: [geoip-<code>.srs], holding the single default
    rule with the CIDR strings of the country in order, then the txt, list,
    yaml and snippet artifacts; each is logged. *)
Theorem release_country_writes_five_files (ruleSetOutput countryCode : string)
    (ipNets : list IPNet) (w : World) :
  (∀ fs path, create_error fs path = None) →
  (srs_Write (rule_set_of ipNets)).2 = None →
  release_country ruleSetOutput tt (countryCode, ipNets) w =
    (inr tt,
     mkWorld (country_files ruleSetOutput countryCode ipNets (files w))
             (logged w ++ country_log ruleSetOutput countryCode)
             (stdout w)).
Proof.
  intros Hc Hsrs. unfold release_country.
  rewrite foldl_snoc_fmap, app_nil_l.
  fold (rule_set_of ipNets). fold (srs_path ruleSetOutput countryCode).
  unfold mbind, IO_bind, log_Info, os_Create. simpl. rewrite Hc.
  unfold file_Write, map_index. simpl.
  rewrite lookup_insert_eq, insert_insert_eq, Hsrs. simpl.
  do 4 (unfold mbind at 1, IO_bind at 1; rewrite writeCIDRsToFile_effect;
        simpl; rewrite Hc).
  unfold mret, IO_ret, country_files, country_log. simpl.
  by rewrite <- !app_assoc.
Qed.

(** X19.  When the database was decoded but a CIDR source cannot be read,
    [release] ends with the error of that source and has written no file:
    no trie, no rule set; the rule-set directory is not removed. *)
Theorem release_aborts_on_failing_source (orders : Orders)
    (sourceRelease : RepositoryRelease) (output ruleSetOutput binary : string)
    (good rest : list string) (bad : string) (w w1 : World) (err : error) :
  download sourceRelease w = (inr binary, w1) →
  (parse binary).2 = None →
  urls = good ++ bad :: rest →
  Forall source_ok good →
  source_error bad = Some err →
  release_pipeline orders sourceRelease output ruleSetOutput w =
    (inl err,
     logging w1 (concat (source_warnings <$> good) ++ source_warnings bad)).
Proof.
  intros Hdl Hp Hurls Hgood Hbad.
  unfold release_pipeline, mbind at 1, IO_bind at 1. rewrite Hdl.
  destruct (parse binary) as [[metadata countryMap] e]. simpl in Hp. subst e.
  unfold mbind, IO_bind, fetchChinaIPCIDR, fetch_sources. rewrite Hurls.
  rewrite foldM_app, (fetch_sources_effect _ Hgood), foldM_cons.
  by rewrite (fetch_url_failure _ _ _ _ Hbad), logging_app.
Qed.
End release_steps.


(** Of the two assets named [Country.mmdb], the first is downloaded. *)
Lemma download_first_asset_witness :
  Assets crowded
  = [mkReleaseAsset "GeoLite2-ASN.mmdb" "https://example.org/asn"]
    ++ mkReleaseAsset "Country.mmdb" "https://example.org/Country.mmdb"
       :: [mkReleaseAsset "Country.mmdb" "https://example.org/other"]
  ∧ @download (served release_pages) crowded world0
    = (inr "img",
       logging world0 [Info ["download "; "https://example.org/Country.mmdb"]]).
Proof.
  split; [reflexivity|].
  refine (eq_trans
    (@download_first_asset (served release_pages) crowded
       [mkReleaseAsset "GeoLite2-ASN.mmdb" "https://example.org/asn"]
       [mkReleaseAsset "Country.mmdb" "https://example.org/other"]
       (mkReleaseAsset "Country.mmdb" "https://example.org/Country.mmdb")
       world0 eq_refl _ eq_refl) _).
  - apply Forall_cons_2; [discriminate | apply Forall_nil_2].
  - vm_compute. reflexivity.
Defined.

Lemma release_country_writes_five_files_witness :
  (∀ fs path, @create_error plain_os fs path = None)
  ∧ (@srs_Write plain_srs (@rule_set_of ipv4_net [net_1_1_1_0; net_2_2_2_0])).2 = None
  ∧ map_to_list
      (files (@release_country ipv4_net plain_os plain_srs "rule-set" tt
                ("cn", [net_1_1_1_0; net_2_2_2_0]) world0).2)
    ≡ₚ [("/rule-set/geoip-cn.srs", "1.1.1.0/24" +:+ LF +:+ "2.2.2.0/23");
        ("/rule-set/geoip-cn.txt", "1.1.1.0/24" +:+ LF +:+ "2.2.2.0/23" +:+ LF);
        ("/rule-set/geoip-cn.list",
         "IP-CIDR,1.1.1.0/24" +:+ LF +:+ "IP-CIDR,2.2.2.0/23" +:+ LF);
        ("/rule-set/geoip-cn.yaml",
         "payload:" +:+ LF +:+ "  - 1.1.1.0/24" +:+ LF +:+ "  - 2.2.2.0/23" +:+ LF);
        ("/rule-set/geoip-cn.snippet",
         "ip-cidr, 1.1.1.0/24" +:+ LF +:+ "ip-cidr, 2.2.2.0/23" +:+ LF)].
Proof.
  assert (Hc : ∀ fs path, @create_error plain_os fs path = None) by reflexivity.
  assert (Hsrs : (@srs_Write plain_srs
                    (@rule_set_of ipv4_net [net_1_1_1_0; net_2_2_2_0])).2 = None)
    by reflexivity.
  split; [exact Hc | split; [exact Hsrs|]].
  rewrite (@release_country_writes_five_files ipv4_net plain_os plain_srs
             "rule-set" "cn" [net_1_1_1_0; net_2_2_2_0] world0 Hc Hsrs).
  apply (bool_decide_unpack _). vm_compute. exact I.
Defined.

(** The database is there, the second CIDR source is not. *)
Lemma release_aborts_on_failing_source_witness :
  let pages := <["https://example.org/Country.mmdb" := ["img"]]> first_page_only in
  let w1 := logging world0 [Info ["download "; "https://example.org/Country.mmdb"]] in
  @download (served pages) upstream world0 = (inr "img", w1)
  ∧ (@parse (single_db "img" two_country_db) "img").2 = None
  ∧ (∃ err,
       @release_pipeline ipv4_net (served pages) plain_os
         (single_db "img" two_country_db) replace_trie plain_srs
         orders_us_cn upstream "geoip.db" "rule-set" world0
       = (inl err, logging w1 [Warn ["Invalid CIDR:"; "bogus"]])).
Proof.
  intros pages w1.
  assert (Hdl : @download (served pages) upstream world0 = (inr "img", w1))
    by (vm_compute; reflexivity).
  assert (Hp : (@parse (single_db "img" two_country_db) "img").2 = None)
    by (vm_compute; reflexivity).
  assert (Hgood : Forall (@source_ok (served pages))
    ["https://raw.githubusercontent.com/misakaio/chnroutes2/master/chnroutes.txt"]).
  { apply Forall_cons_2; [|apply Forall_nil_2].
    eexists; split; [vm_compute; reflexivity | reflexivity]. }
  assert (Hbad : @source_error (served pages)
            "https://raw.githubusercontent.com/gaoyifan/china-operator-ip/ip-lists/china6.txt"
          = Some (Error "Get https://raw.githubusercontent.com/gaoyifan/china-operator-ip/ip-lists/china6.txt"))
    by (vm_compute; reflexivity).
  split; [exact Hdl | split; [exact Hp|]]. eexists.
  refine (eq_trans
    (@release_aborts_on_failing_source ipv4_net (served pages) plain_os
       (single_db "img" two_country_db) replace_trie plain_srs
       orders_us_cn upstream "geoip.db" "rule-set" "img"
       ["https://raw.githubusercontent.com/misakaio/chnroutes2/master/chnroutes.txt"]
       [] _ world0 w1 _ Hdl Hp eq_refl Hgood Hbad) _).
  vm_compute. reflexivity.
Defined.

(** ** All networks, all countries *)

Lemma range_map_all {V} (m : gmap string V) (entries : list (string * V)) :
  Forall (λ entry, m !! entry.1 = Some entry.2) entries →
  range_map entries.*1 m = entries.
Proof.
  induction 1 as [|[k v] entries Hk _ IH]; [done|].
  rewrite fmap_cons, range_map_cons. simpl in *. by rewrite Hk, IH.
Qed.

(** A range loop visits the entries of the map, each once. *)
Lemma range_map_Permutation {V} (order : list string) (m : gmap string V) :
  range_order m order → range_map order m ≡ₚ map_to_list m.
Proof.
  unfold range_order. intros Horder.
  transitivity (range_map (map_to_list m).*1 m).
  - unfold range_map. by rewrite Horder.
  - rewrite range_map_all; [done|]. apply Forall_forall.
    intros [k v] Hin. by apply elem_of_map_to_list.
Qed.

Lemma insertions_length (entries : list (string * list IPNet)) :
  length (insertions entries) = sum_list (length <$> entries.*2).
Proof.
  unfold insertions.
  induction entries as [|[code data] entries IH]; [done|].
  change (length (((λ item, (item, code)) <$> data)
                  ++ (entries ≫= λ entry, (λ item, (item, entry.1)) <$> entry.2))
          = length data + sum_list (length <$> entries.*2)).
  by rewrite length_app, length_fmap, IH.
Qed.

Section all_networks.
Context `{!NetPkg, !OSPkg, !MMDBWriter, !SRSPkg}.

(** X20.  Whatever the order in which the range loop visits the map,
    [write] without code filter asks for the insertion of every network of
    the map exactly once, under its key: the calls are a rearrangement of
    the entries of the map. *)
Theorem write_inserts_each_network_once (order_codes order_data : list string)
    (writer : Tree) (dataMap : gmap string (list IPNet)) (output : string)
    (w : World) :
  range_order dataMap order_codes →
  range_order dataMap order_data →
  ∃ calls : list (IPNet * string),
    write order_codes order_data writer dataMap output [] w =
      match insert_all writer calls with
      | inl err => (inl err, w)
      | inr tree => write_file output tree w
      end
    ∧ calls ≡ₚ insertions (map_to_list dataMap)
    ∧ length calls = group_sizes dataMap.
Proof.
  intros Hcodes Hdata. exists (insertions (range_map order_data dataMap)).
  assert (Hperm : insertions (range_map order_data dataMap)
                  ≡ₚ insertions (map_to_list dataMap)).
  { unfold insertions. by rewrite (range_map_Permutation _ _ Hdata). }
  split; [|split; [exact Hperm|]].
  - rewrite write_outcome. simpl length. simpl Nat.eqb. cbv iota.
    rewrite retained_listed, filter_all; [done|].
    apply Forall_forall. intros [code data] Hin. simpl.
    apply range_map_lookup in Hin. by apply (range_order_covers _ _ _ data).
  - rewrite Hperm. apply insertions_length.
Qed.

(** The loop body of [release], when files can be created. *)
Lemma release_country_outcome (ruleSetOutput countryCode : string)
    (ipNets : list IPNet) (w : World) :
  (∀ fs path, create_error fs path = None) →
  release_country ruleSetOutput tt (countryCode, ipNets) w =
    match (srs_Write (rule_set_of ipNets)).2 with
    | Some err =>
        (inl err,
         mkWorld (<[srs_path ruleSetOutput countryCode
                    := (srs_Write (rule_set_of ipNets)).1]> (files w))
                 (logged w ++ [Info ["write "; srs_path ruleSetOutput countryCode]])
                 (stdout w))
    | None =>
        (inr tt,
         mkWorld (country_files ruleSetOutput countryCode ipNets (files w))
                 (logged w ++ country_log ruleSetOutput countryCode)
                 (stdout w))
    end.
Proof.
  intros Hc. unfold release_country.
  rewrite foldl_snoc_fmap, app_nil_l.
  fold (rule_set_of ipNets). fold (srs_path ruleSetOutput countryCode).
  unfold mbind, IO_bind, log_Info, os_Create. simpl. rewrite Hc.
  unfold file_Write, map_index. simpl.
  rewrite lookup_insert_eq, insert_insert_eq.
  destruct (srs_Write (rule_set_of ipNets)).2 as [err|]; simpl; [done|].
  do 4 (unfold mbind at 1, IO_bind at 1; rewrite writeCIDRsToFile_effect;
        simpl; rewrite Hc).
  unfold mret, IO_ret, country_files, country_log. simpl.
  by rewrite <- !app_assoc.
Qed.

Lemma release_countries_outcome (ruleSetOutput : string)
    (entries : list (string * list IPNet)) :
  (∀ fs path, create_error fs path = None) →
  Forall (λ entry, (srs_Write (rule_set_of entry.2)).2 = None) entries →
  ∀ w : World,
  foldM (release_country ruleSetOutput) tt entries w =
    (inr tt,
     mkWorld (countries_files ruleSetOutput entries (files w))
             (logged w ++ countries_log ruleSetOutput entries)
             (stdout w)).
Proof.
  intros Hc. induction 1 as [|[code ipNets] entries Hsrs _ IH]; intros w.
  - simpl. unfold countries_log. simpl. rewrite app_nil_r. by destruct w.
  - rewrite foldM_cons, (release_country_outcome _ _ _ _ Hc). simpl in Hsrs.
    rewrite Hsrs, IH. simpl. unfold countries_log.
    change ((code, ipNets) :: entries ≫= _)
      with (country_log ruleSetOutput code
            ++ (entries ≫= λ entry, country_log ruleSetOutput entry.1)).
    by rewrite <- app_assoc.
Qed.

(** X21.  On a system where files can be created and with rule sets that
    serialise, the loop of [release] over the countries writes the five
    files of every country, in the order in which it visits the map, and
    nothing else. *)
Theorem release_writes_every_country (ruleSetOutput : string)
    (order : list string) (countryMap : gmap string (list IPNet)) (w : World) :
  (∀ fs path, create_error fs path = None) →
  (∀ ipNets, (srs_Write (rule_set_of ipNets)).2 = None) →
  range_order countryMap order →
  foldM (release_country ruleSetOutput) tt (range_map order countryMap) w =
    (inr tt,
     mkWorld (countries_files ruleSetOutput (range_map order countryMap) (files w))
             (logged w ++ countries_log ruleSetOutput (range_map order countryMap))
             (stdout w))
  ∧ range_map order countryMap ≡ₚ map_to_list countryMap.
Proof.
  intros Hc Hsrs Horder. split; [|by apply range_map_Permutation].
  apply release_countries_outcome; [done|].
  apply Forall_forall. intros entry _. apply Hsrs.
Qed.

(** X22.  The loop over the countries is not transactional: when the rule
    set of a country cannot be serialised, [release] returns that error,
    the files of the countries visited before stay, the rule-set file of
    the failing country holds what was written of it, its text artifacts
    and the countries after it are not written. *)
Theorem release_stops_at_failing_country (ruleSetOutput : string)
    (done rest : list (string * list IPNet)) (code : string)
    (ipNets : list IPNet) (w : World) (err : error) :
  (∀ fs path, create_error fs path = None) →
  Forall (λ entry, (srs_Write (rule_set_of entry.2)).2 = None) done →
  (srs_Write (rule_set_of ipNets)).2 = Some err →
  foldM (release_country ruleSetOutput) tt (done ++ (code, ipNets) :: rest) w =
    (inl err,
     mkWorld (<[srs_path ruleSetOutput code := (srs_Write (rule_set_of ipNets)).1]>
                (countries_files ruleSetOutput done (files w)))
             (logged w ++ countries_log ruleSetOutput done
              ++ [Info ["write "; srs_path ruleSetOutput code]])
             (stdout w)).
Proof.
  intros Hc Hdone Hsrs.
  rewrite foldM_app, (release_countries_outcome _ _ Hc Hdone), foldM_cons.
  rewrite (release_country_outcome _ _ _ _ Hc), Hsrs. simpl.
  by rewrite <- app_assoc.
Qed.
End all_networks.

Lemma write_inserts_each_network_once_witness :
  range_order disjoint_map ["cn"; "us"]
  ∧ range_order disjoint_map ["us"; "cn"]
  ∧ ∃ calls : list (IPNet * string),
      (@write plain_os recorder ["cn"; "us"] ["us"; "cn"] [] disjoint_map
         "geoip.db" [] world0).1 = inr calls
      ∧ calls ≡ₚ [(net_1_1_1_0, "cn"); (net_1_2_3_0, "us")]
      ∧ length calls = 2.
Proof.
  split; [exact range_order_disjoint_cn_us|].
  split; [exact range_order_disjoint_us_cn|].
  destruct (@write_inserts_each_network_once plain_os recorder
              ["cn"; "us"] ["us"; "cn"] [] disjoint_map "geoip.db" world0
              range_order_disjoint_cn_us range_order_disjoint_us_cn)
    as (calls & Hrun & Hperm & Hlen).
  exists calls. split; [|split; [exact Hperm | exact Hlen]].
  rewrite Hrun.
  assert (Hall : ∀ (l tree : list (IPNet * string)),
            @insert_all recorder tree l = inr (tree ++ l)).
  { induction l as [|[item code] l IH]; intros tree; simpl.
    - by rewrite app_nil_r.
    - by rewrite IH, <- app_assoc. }
  by rewrite Hall.
Defined.

Lemma release_writes_every_country_witness :
  (∀ fs path, @create_error plain_os fs path = None)
  ∧ (∀ ipNets, (@srs_Write plain_srs (@rule_set_of ipv4_net ipNets)).2 = None)
  ∧ range_order disjoint_map ["us"; "cn"]
  ∧ (foldM (@release_country ipv4_net plain_os plain_srs "rule-set") tt
       (range_map ["us"; "cn"] disjoint_map) world0).1 = inr tt
  ∧ size (files (foldM (@release_country ipv4_net plain_os plain_srs "rule-set") tt
                   (range_map ["us"; "cn"] disjoint_map) world0).2) = 10.
Proof.
  assert (Hc : ∀ fs path, @create_error plain_os fs path = None) by reflexivity.
  assert (Hsrs : ∀ ipNets,
            (@srs_Write plain_srs (@rule_set_of ipv4_net ipNets)).2 = None)
    by reflexivity.
  split; [exact Hc | split; [exact Hsrs | split; [exact range_order_disjoint_us_cn|]]].
  rewrite (proj1 (@release_writes_every_country ipv4_net plain_os plain_srs
                    "rule-set" ["us"; "cn"] disjoint_map world0 Hc Hsrs
                    range_order_disjoint_us_cn)).
  split; [reflexivity | vm_compute; reflexivity].
Defined.

(** The rule set of [cn] is empty and refused; [us] was visited before. *)
Lemma release_stops_at_failing_country_witness :
  (∀ fs path, @create_error plain_os fs path = None)
  ∧ Forall (λ entry : string * list IPNet,
              (@srs_Write strict_srs (@rule_set_of ipv4_net entry.2)).2 = None)
           [("us", [net_1_2_3_0])]
  ∧ (@srs_Write strict_srs (@rule_set_of ipv4_net [])).2 = Some (Error "empty rule")
  ∧ (foldM (@release_country ipv4_net plain_os strict_srs "rule-set") tt
       ([("us", [net_1_2_3_0])] ++ ("cn", []) :: []) world0).1
    = inl (Error "empty rule")
  ∧ files (foldM (@release_country ipv4_net plain_os strict_srs "rule-set") tt
             ([("us", [net_1_2_3_0])] ++ ("cn", []) :: []) world0).2
    !! "/rule-set/geoip-us.txt" = Some ("1.2.3.0/24" +:+ LF)
  ∧ files (foldM (@release_country ipv4_net plain_os strict_srs "rule-set") tt
             ([("us", [net_1_2_3_0])] ++ ("cn", []) :: []) world0).2
    !! "/rule-set/geoip-cn.txt" = None.
Proof.
  assert (Hc : ∀ fs path, @create_error plain_os fs path = None) by reflexivity.
  assert (Hdone : Forall (λ entry : string * list IPNet,
              (@srs_Write strict_srs (@rule_set_of ipv4_net entry.2)).2 = None)
           [("us", [net_1_2_3_0])])
    by (apply Forall_cons_2; [reflexivity | apply Forall_nil_2]).
  assert (Hsrs : (@srs_Write strict_srs (@rule_set_of ipv4_net [])).2
                 = Some (Error "empty rule")) by reflexivity.
  split; [exact Hc | split; [exact Hdone | split; [exact Hsrs|]]].
  rewrite (@release_stops_at_failing_country ipv4_net plain_os strict_srs
             "rule-set" [("us", [net_1_2_3_0])] [] "cn" [] world0 _ Hc Hdone Hsrs).
  split; [reflexivity | split; vm_compute; reflexivity].
Defined.
